(** * YouTube_Downloader backend: the download endpoint and the progress registry

    A shallow embedding of [src/backend/index.js]: the SSE progress helpers
    ([progressEmitters], [getEmitter], [sendProgress]), the metadata helper
    ([ytDlpMetadata]), the [/api/progress/:key] endpoint and the
    [/api/download/:id] endpoint, followed by the properties of the
    specification that concern them.

    Conventions of the embedding.
    - JavaScript strings are [string]s: a character is a code unit below
      256, and the built-ins are the JavaScript ones on such strings.  Code
      units from 256 on are outside the model.
    - JavaScript numbers are IEEE 754 binary64 values ([F64.float]), with
      their signed zeros, infinities and [NaN], and every operation rounds
      to nearest, ties to even.  The duration of the metadata, a number
      read from JSON, is kept as the rational it denotes; the handler only
      takes its integer part.
    - The event loop is a step function on a [World]: every callback the
      source registers is a case of [step], taken only once the callback has
      been registered, and every event of the environment (a subprocess
      closing, a stream ending, the client going away) is an [Event]. *)

From Stdlib Require Import ZArith QArith Qround Ascii String SpecFloat.
From stdpp Require Import base strings list gmap pretty.

Local Open Scope Z_scope.

(** ** Numbers *)

(** IEEE 754 binary64, on the specification of the Standard Library: 53
    bits of precision, exponents below 1024. *)
Module F64.

Definition float : Type := spec_float.

Definition prec : Z := 53.
Definition emax : Z := 1024.

Definition zero : float := S754_zero false.
Definition nan : float := S754_nan.

Definition add : float -> float -> float := SFadd prec emax.
Definition mul : float -> float -> float := SFmul prec emax.
Definition div : float -> float -> float := SFdiv prec emax.

(** [a <= b] *)
Definition leb : float -> float -> bool := SFleb.

(** The number an integer denotes: the nearest double. *)
Definition of_Z (z : Z) : float := binary_normalize prec emax z 0 false.

(** The number a decimal literal denotes: the double nearest to
    [m * 10^e], for a mantissa [m] that is not negative, with the sign
    [neg]. *)
Definition of_decimal (neg : bool) (m e : Z) : float :=
  match m with
  | Zpos p =>
      if 0 <=? e then binary_round prec emax neg (p * Z.to_pos (10 ^ e)) 0
      else div (S754_finite neg p 0) (S754_finite false (Z.to_pos (10 ^ (- e))) 0)
  | _ => S754_zero neg
  end.

(** The integer part, rounded down, of the finite number
    [(-1)^s * m * 2^e]. *)
Definition floorZ (s : bool) (m : positive) (e : Z) : Z :=
  let v := if s then Zneg m else Zpos m in
  if 0 <=? e then v * 2 ^ e else v / 2 ^ (- e).

(** The rational a zero or a finite number denotes. *)
Definition value (x : float) : option Q :=
  match x with
  | S754_zero _ => Some 0%Q
  | S754_finite s m e =>
      Some (inject_Z (if s then Zneg m else Zpos m) * Qpower (2 # 1) e)%Q
  | _ => None
  end.

(** [x] is a number, not [NaN], whose sign bit is [s]. *)
Definition signed (s : bool) (x : float) : Prop :=
  match x with
  | S754_zero s' | S754_infinity s' | S754_finite s' _ _ => s' = s
  | S754_nan => False
  end.

(** The doubles of the whole numbers from 1 to [n] are finite and
    positive. *)
Definition positive_upto (n : nat) : bool :=
  forallb (fun k => match of_Z (Z.of_nat k) with
                    | S754_finite false _ _ => true
                    | _ => false
                    end) (seq 1 n).

End F64.

(** ** JavaScript built-ins used by the handlers *)

Module JS.

Definition code (c : ascii) : Z := Z.of_N (Ascii.N_of_ascii c).

Definition is_upper (c : ascii) : bool := (65 <=? code c) && (code c <=? 90).
Definition is_lower (c : ascii) : bool := (97 <=? code c) && (code c <=? 122).
Definition is_digit (c : ascii) : bool := (48 <=? code c) && (code c <=? 57).

(** [\s] below 256: tab, line feed, vertical tab, form feed, carriage
    return, space and the no-break space U+00A0. *)
Definition is_space (c : ascii) : bool :=
  ((9 <=? code c) && (code c <=? 13)) || (code c =? 32) || (code c =? 160).

(** [\w] is [A-Za-z0-9_]. *)
Definition is_word (c : ascii) : bool :=
  is_upper c || is_lower c || is_digit c || (code c =? 95).

(** The capital letters below 256 are [A-Z] and U+00C0 to U+00DE without
    the multiplication sign U+00D7; each is 32 below its small letter. *)
Definition lower_char (c : ascii) : ascii :=
  if is_upper c
     || ((192 <=? code c) && (code c <=? 222) && negb (code c =? 215))
  then Ascii.ascii_of_N (Z.to_N (code c + 32)) else c.

(** [String.prototype.toLowerCase] *)
Fixpoint toLowerCase (s : string) : string :=
  match s with
  | EmptyString => EmptyString
  | String c r => String (lower_char c) (toLowerCase r)
  end.

Fixpoint filter_chars (keep : ascii -> bool) (s : string) : string :=
  match s with
  | EmptyString => EmptyString
  | String c r =>
      if keep c then String c (filter_chars keep r) else filter_chars keep r
  end.

(** [s.substring(0, n)] *)
Fixpoint substring0 (n : nat) (s : string) : string :=
  match n, s with
  | S k, String c r => String c (substring0 k r)
  | _, _ => EmptyString
  end.

(** [s.replace(/\s+/g, '_')]: every maximal run of white space becomes one
    underscore.  [in_run] tells that the previous character was white
    space. *)
Fixpoint squash_spaces (in_run : bool) (s : string) : string :=
  match s with
  | EmptyString => EmptyString
  | String c r =>
      if is_space c
      then (if in_run then squash_spaces true r
            else String "_"%char (squash_spaces true r))
      else String c (squash_spaces false r)
  end.

(** [s.split(':')]: always at least one piece. *)
Fixpoint split_colon (cur : string) (s : string) : list string :=
  match s with
  | EmptyString => [String.rev cur]
  | String c r =>
      if (code c =? 58) then String.rev cur :: split_colon EmptyString r
      else split_colon (String c cur) r
  end.

Definition hex_digit (n : Z) : ascii :=
  Ascii.ascii_of_N (Z.to_N (if n <? 10 then 48 + n else 55 + n)).

(** The characters [encodeURIComponent] leaves alone. *)
Definition uri_unreserved (c : ascii) : bool :=
  is_word c ||
  existsb (Z.eqb (code c)) [45; 46; 33; 126; 42; 39; 40; 41].

(** The escape [%XY] of the byte [n], in front of [r]. *)
Definition escape (n : Z) (r : string) : string :=
  String "%"%char (String (hex_digit (n / 16)) (String (hex_digit (n mod 16)) r)).

(** A character that is not left alone is escaped byte by byte in UTF-8:
    one byte below 128, two bytes from U+0080 to U+00FF. *)
Fixpoint encodeURIComponent (s : string) : string :=
  match s with
  | EmptyString => EmptyString
  | String c r =>
      if uri_unreserved c then String c (encodeURIComponent r)
      else if code c <? 128 then escape (code c) (encodeURIComponent r)
      else escape (192 + code c / 64)
             (escape (128 + code c mod 64) (encodeURIComponent r))
  end.

(** *** Numbers *)

Fixpoint skip_spaces (s : string) : string :=
  match s with
  | String c r => if is_space c then skip_spaces r else s
  | EmptyString => s
  end.

(** Reads a run of decimal digits: its value continuing [acc], how many
    digits were read, and the rest of the input. *)
Fixpoint digits (acc : Z) (n : Z) (s : string) : Z * Z * string :=
  match s with
  | String c r =>
      if is_digit c then digits (10 * acc + (code c - 48)) (n + 1) r
      else (acc, n, s)
  | EmptyString => (acc, n, s)
  end.

Definition sign (s : string) : bool * string :=
  match s with
  | String c r =>
      if code c =? 45 then (true, r)
      else if code c =? 43 then (false, r) else (false, s)
  | EmptyString => (false, s)
  end.

(** The exponent part [e±ddd]; [0] when there is none. *)
Definition exponent (s : string) : Z :=
  match s with
  | String c r =>
      if (code c =? 101) || (code c =? 69) then
        let '(neg, r1) := sign r in
        let '(v, n, _) := digits 0 0 r1 in
        if n =? 0 then 0 else if neg then - v else v
      else 0
  | EmptyString => 0
  end.

(** [parseFloat]: leading white space, an optional sign, then [Infinity]
    or the longest prefix that is a decimal literal, whose digits are the
    integer [m] and whose value is [m * 10^e]; [NaN] when there is no such
    prefix. *)
Definition parseFloat (s : string) : F64.float :=
  let '(neg, s1) := sign (skip_spaces s) in
  if String.prefix "Infinity" s1 then S754_infinity neg
  else
    let '(ip, ni, s2) := digits 0 0 s1 in
    let '(m, nf, s3) :=
      match s2 with
      | String c r => if code c =? 46 then digits ip 0 r else (ip, 0, s2)
      | EmptyString => (ip, 0, s2)
      end in
    if ni + nf =? 0 then F64.nan
    else F64.of_decimal neg m (exponent s3 - nf).

End JS.

(** ** Progress events and the SSE registry (lines 51-62 and 94-124) *)

Inductive Status :=
  St_starting | St_converting | St_done | St_error | St_aborted.

(** The value of the [progress] field: [null], or a number, which is
    [NaN], [-Infinity] or an integer. *)
Inductive Percent := PNull | PNaN | PNegInf | PInt (n : Z).

(** The object literals handed to [sendProgress]; a field that the literal
    does not have is [None]. *)
Record Payload := mkPayload {
  p_status : Status;
  p_progress : option Percent;
  p_timemark : option (option string);
  p_error : option string
}.

(** What the SSE handler writes on its response. *)
Inductive SseLine :=
| Data (p : Payload)      (* [data: <json>\n\n] *)
| KeepAlive.              (* [:\n\n] *)

(** One connection to [/api/progress/:key]: the locals [key] and [emitter]
    of its handler, what was written so far, and whether it is still open.
    The listener [onProgress] of a connection is identified with the index
    of the connection. *)
Record Sse := mkSse {
  sse_key : string;
  sse_emitter : nat;
  sse_out : list SseLine;
  sse_open : bool
}.

(** The process-wide state of the progress helpers.  [EventEmitter] objects
    live in a heap ([emitters], an object is its index) so that the handlers
    hold references to them; the value of an object is the list of its
    ['progress'] listeners in registration order.  [progressEmitters] is the
    [Map] of the source. *)
Record Hub := mkHub {
  emitters : list (list nat);
  progressEmitters : gmap string nat;
  conns : list Sse
}.

Module Hub.

Definition empty : Hub := mkHub [] ∅ [].

(** [getEmitter(key)] *)
Definition getEmitter (key : string) (h : Hub) : nat * Hub :=
  match progressEmitters h !! key with
  | Some e => (e, h)
  | None =>
      let e := length (emitters h) in
      (e, mkHub (emitters h ++ [[]]) (<[key := e]> (progressEmitters h)) (conns h))
  end.

(** The listener [onProgress] of connection [c]: one [res.write]. *)
Definition onProgress (payload : Payload) (c : nat) (cs : list Sse) : list Sse :=
  alter (fun s => mkSse (sse_key s) (sse_emitter s)
                    (sse_out s ++ [Data payload]) (sse_open s)) c cs.

(** [emitter.emit('progress', payload)] *)
Definition emit (e : nat) (payload : Payload) (h : Hub) : Hub :=
  let ls := default [] (emitters h !! e) in
  mkHub (emitters h) (progressEmitters h)
    (foldl (fun cs c => onProgress payload c cs) (conns h) ls).

(** [sendProgress(key, payload)] *)
Definition sendProgress (key : string) (payload : Payload) (h : Hub) : Hub :=
  match progressEmitters h !! key with
  | Some e => emit e payload h
  | None => h
  end.

(** [app.get('/api/progress/:key')]: a new connection subscribes. *)
Definition subscribe (key : string) (h : Hub) : Hub :=
  let '(e, h1) := getEmitter key h in
  let c := length (conns h1) in
  mkHub (alter (fun ls => ls ++ [c]) e (emitters h1))
    (progressEmitters h1)
    (conns h1 ++ [mkSse key e [] true]).

(** The [setInterval] callback of connection [c], until [clearInterval]. *)
Definition keepAlive (c : nat) (h : Hub) : Hub :=
  mkHub (emitters h) (progressEmitters h)
    (alter (fun s => if sse_open s
                     then mkSse (sse_key s) (sse_emitter s)
                            (sse_out s ++ [KeepAlive]) true
                     else s) c (conns h)).

Fixpoint remove_first (c : nat) (ls : list nat) : list nat :=
  match ls with
  | [] => []
  | x :: r => if decide (x = c) then r else x :: remove_first c r
  end.

(** [emitter.listenerCount('progress')] *)
Definition listenerCount (e : nat) (h : Hub) : nat :=
  length (default [] (emitters h !! e)).

(** [req.on('close', ...)] of connection [c] (lines 119-123); the event is
    delivered once. *)
Definition unsubscribe (c : nat) (h : Hub) : Hub :=
  match conns h !! c with
  | Some s =>
      if sse_open s then
        let h1 :=
          mkHub (alter (remove_first c) (sse_emitter s) (emitters h))
            (progressEmitters h)
            (alter (fun s => mkSse (sse_key s) (sse_emitter s) (sse_out s) false)
               c (conns h)) in
        if (listenerCount (sse_emitter s) h1 =? 0)%nat
        then mkHub (emitters h1) (delete (sse_key s) (progressEmitters h1)) (conns h1)
        else h1
      else h
  | None => h
  end.

End Hub.

(** ** The progress percentage of the mp3 path (lines 220-242) *)

(** [p => parseFloat(p || 0)] *)
Definition part (p : string) : F64.float :=
  JS.parseFloat (if decide (p = EmptyString) then "0" else p).

(** [toSeconds] (lines 221-226): a timemark ["HH:MM:SS.xx"] in seconds;
    [tm] is [None] for [undefined]. *)
Definition toSeconds (tm : option string) : F64.float :=
  match tm with
  | None => F64.zero
  | Some s =>
      if decide (s = EmptyString) then F64.zero
      else
        match part <$> JS.split_colon EmptyString s with
        | [h; m; sec] =>
            F64.add (F64.add (F64.mul h (F64.of_Z 3600)) (F64.mul m (F64.of_Z 60))) sec
        | _ => F64.zero
        end
  end.

(** [Math.min(100, Math.floor(x))]: [Math.floor] keeps [NaN], the
    infinities and the zeros, and [Math.min] is [NaN] on [NaN]. *)
Definition min100_floor (x : F64.float) : Percent :=
  match x with
  | S754_nan => PNaN
  | S754_infinity true => PNegInf
  | S754_infinity false => PInt 100
  | S754_zero _ => PInt 0
  | S754_finite s m e => PInt (Z.min 100 (F64.floorZ s m e))
  end.

(** Line 240:
    [duration ? Math.min(100, Math.floor((seconds / duration) * 100)) : null],
    where [duration] is the integer of line 190. *)
Definition percentOf (duration : Z) (seconds : F64.float) : Percent :=
  if duration =? 0 then PNull
  else
    min100_floor
      (F64.mul (F64.div seconds (F64.of_Z duration)) (F64.of_Z 100)).

(** ** Subprocesses, the temporary directory and the HTTP response *)

Inductive Cmd :=
| YtJson (url : string)          (* [yt-dlp -j url], line 81 *)
| YtAudio (url : string)         (* [yt-dlp -f bestaudio -o - ...], line 212 *)
| YtMerge (out url : string).    (* [yt-dlp -f bv*+ba/b ... -o out], line 294 *)

Inductive Signal := SIGTERM | SIGKILL.

(** [SpawnFailed]: the ['error'] event of a child that could not be started. *)
Inductive ProcState := Running | SpawnFailed | Closed.

Record Proc := mkProc {
  cmd : Cmd;
  pstate : ProcState;
  signals : list Signal
}.

(** [spawn(...)]: the new child is the last entry of the table. *)
Definition spawn (c : Cmd) (ps : list Proc) : nat * list Proc :=
  (length ps, ps ++ [mkProc c Running []]).

(** [proc.kill(sig)]: a child that is not running receives nothing. *)
Definition kill (sig : Signal) (pid : nat) (ps : list Proc) : list Proc :=
  alter (fun p => match pstate p with
                  | Running => mkProc (cmd p) Running (signals p ++ [sig])
                  | _ => p
                  end) pid ps.

Definition set_pstate (st : ProcState) (pid : nat) (ps : list Proc) : list Proc :=
  alter (fun p => mkProc (cmd p) st (signals p)) pid ps.

Definition is_running (pid : nat) (ps : list Proc) : bool :=
  match ps !! pid with
  | Some p => match pstate p with Running => true | _ => false end
  | None => false
  end.

(** The files of [downloadsDir] with their sizes, and the calls of
    [fs.unlinkSync] that removed a file, oldest first. *)
Record FS := mkFS {
  files : gmap string N;
  unlinked : list string
}.

Definition existsSync (p : string) (fs : FS) : bool :=
  match files fs !! p with Some _ => true | None => false end.

(** [fs.unlinkSync(p)]; [None] when it throws (no such file). *)
Definition unlinkSync (p : string) (fs : FS) : option FS :=
  match files fs !! p with
  | Some _ => Some (mkFS (delete p (files fs)) (unlinked fs ++ [p]))
  | None => None
  end.

Definition statSync (p : string) (fs : FS) : option N := files fs !! p.

(** [try { if (fs.existsSync(p)) fs.unlinkSync(p); } catch (e) { console.warn(..) }]:
    the body of [cleanupTemp] (line 345), also lines 313 and 376-378. *)
Definition cleanupTemp (p : string) (fs : FS) : FS :=
  if existsSync p fs then
    match unlinkSync p fs with
    | Some fs' => fs'
    | None => fs
    end
  else fs.

(** The errors that reach the [catch] block; [String(err)] and its
    truncations stay symbolic. *)
Inductive Err :=
| ErrNotOnPath                          (* 'yt-dlp not found on PATH' *)
| ErrExited (code : Z)                  (* 'yt-dlp exited <code>: ...' *)
| ErrParse                              (* [JSON.parse] threw *)
| ErrWrapper                            (* the yt-dlp-exec promise rejected *)
| ErrSpawn                              (* the ['error'] event of [dlProc] *)
| ErrClientDisconnected                 (* 'Client disconnected during download.' *)
| ErrFallbackFailed                     (* 'yt-dlp fallback failed: ...' *)
| ErrNoTempFile.                        (* 'Expected temp file not found ...' *)

(** The [details] field of a JSON error reply. *)
Inductive Details :=
| NoDetails
| OfErr (e : Err)              (* [String(err).slice(0, 500)], line 381 *)
| OfFfmpeg (msg : string).     (* [String(err)], line 249 *)

Record Json := mkJson {
  j_error : string;
  j_details : Details
}.

(** The response of the download request.  [body] is the JSON reply, if one
    was sent; the headers Express adds by itself to a JSON reply are not
    part of the model. *)
Record Res := mkRes {
  statusCode : Z;
  headers : gmap string string;
  headersSent : bool;
  body : option Json;
  finished : bool
}.

Definition res0 : Res := mkRes 200 ∅ false None false.

Definition setHeader (k v : string) (r : Res) : Res :=
  mkRes (statusCode r) (<[k := v]> (headers r)) (headersSent r) (body r) (finished r).

(** [res.status(c).json(b)] *)
Definition json (c : Z) (b : Json) (r : Res) : Res :=
  mkRes c (headers r) true (Some b) true.

(** [res.end()] *)
Definition end_ (r : Res) : Res :=
  mkRes (statusCode r) (headers r) true (body r) true.

(** Headers go out: [res.flushHeaders()] or the first chunk of the body. *)
Definition sent (r : Res) : Res :=
  mkRes (statusCode r) (headers r) true (body r) (finished r).

(** ** The download endpoint (lines 179-386) *)

(** What the process was started with and what the outside supplies:
    whether [yt-dlp-exec] is installed (lines 13-20), whether the response
    object has [flushHeaders] (it is called through [?.]), the temporary
    directory and the value [Date.now()] returns at line 277. *)
Record Env := mkEnv {
  ytDlpExecWrapper : bool;
  hasFlushHeaders : bool;
  downloadsDir : string;
  now : N
}.

(** [req.params.id], [req.query.format] and [req.query.key]. *)
Record Request := mkRequest {
  params_id : string;
  query_format : option string;
  query_key : option string
}.

(** The fields of the yt-dlp JSON that the handler reads. *)
Record Meta := mkMeta {
  title : option string;
  duration : option Q
}.

(** What the fluent-ffmpeg command has reported: nothing yet, or the last
    of ['end'] and ['error'] it emitted.  No callback reads it; it is kept
    for the statements about the conversion. *)
Inductive FfState := FfRunning | FfEnded | FfFailed.
Inductive ReadState := RsOpen | RsEnded | RsErrored | RsDestroyed.

(** Where the handler is, with the locals its registered callbacks close
    over.  In every phase but [AwaitMeta] and [Replied] the [req.on('close')]
    callbacks of that path are registered. *)
Inductive Phase :=
| AwaitMeta (proc : option nat)
    (* [await ytDlpMetadata(url)], line 189; [proc] is the child of line 81 *)
| Mp3 (ytProc : nat) (duration : Z) (clientKey filename : string) (ff : FfState)
    (* lines 197-272 have run *)
| Mp4Download (tempFilePath filename : string) (dlProc : nat)
    (abortedDuringDownload settled : bool)
    (* lines 274-325: the promise of line 293 is pending or rejected *)
| Mp4Stream (tempFilePath : string) (dlProc : nat) (size : N) (rs : ReadState)
    (* lines 327-364 have run *)
| Replied.
    (* the handler answered and registered nothing *)

Record World := mkWorld {
  env : Env;
  id : string;                (* line 180 *)
  format : string;            (* line 181 *)
  key : option string;
  procs : list Proc;
  fs : FS;
  hub : Hub;
  res : Res;
  closed : bool;              (* the ['close'] event of [req] was emitted *)
  phase : Phase
}.

Definition with_procs (f : list Proc -> list Proc) (w : World) : World :=
  mkWorld (env w) (id w) (format w) (key w) (f (procs w)) (fs w) (hub w) (res w)
    (closed w) (phase w).
Definition with_fs (f : FS -> FS) (w : World) : World :=
  mkWorld (env w) (id w) (format w) (key w) (procs w) (f (fs w)) (hub w) (res w)
    (closed w) (phase w).
Definition with_hub (f : Hub -> Hub) (w : World) : World :=
  mkWorld (env w) (id w) (format w) (key w) (procs w) (fs w) (f (hub w)) (res w)
    (closed w) (phase w).
Definition with_res (f : Res -> Res) (w : World) : World :=
  mkWorld (env w) (id w) (format w) (key w) (procs w) (fs w) (hub w) (f (res w))
    (closed w) (phase w).
Definition with_closed (b : bool) (w : World) : World :=
  mkWorld (env w) (id w) (format w) (key w) (procs w) (fs w) (hub w) (res w)
    b (phase w).
Definition with_phase (ph : Phase) (w : World) : World :=
  mkWorld (env w) (id w) (format w) (key w) (procs w) (fs w) (hub w) (res w)
    (closed w) ph.

(** [x || d] on an optional string: [undefined] and [''] are falsy. *)
Definition or_else (x : option string) (d : string) : string :=
  match x with
  | Some s => if decide (s = EmptyString) then d else s
  | None => d
  end.

(** Line 181: [(req.query.format || 'mp3').toLowerCase()] *)
Definition formatOf (q : option string) : string :=
  JS.toLowerCase (or_else q "mp3").

(** Line 182 *)
Definition urlOf (i : string) : string :=
  "https://www.youtube.com/watch?v=" +:+ i.

(** What the environment can do to one download request and to the
    registry. *)
Inductive Event :=
(* [ytDlpMetadata], lines 65-92 *)
| WrapperResolved (parsed : option Meta)
    (* the yt-dlp-exec promise resolves; [None]: [JSON.parse] throws *)
| WrapperRejected
| MetaProcError
| MetaProcClose (code : Z) (parsed : option Meta)
    (* [parsed] is [JSON.parse(out)], [None] when it throws *)
(* the mp3 path *)
| YtProcExit
| FfStart
| FfProgress (timemark : option string)
| FfData                      (* the pipe writes ffmpeg output on the response *)
| FfPipeEnd                   (* the output of ffmpeg ends *)
| FfError (msg : string)
| FfEnd
(* the mp4 path *)
| DlWrite (size : N)          (* yt-dlp writes its output file *)
| DlProcError
| DlProcClose (code : Z)
| ReadData
| ReadError
| ReadEnd
(* the connection of the download request *)
| ReqClose (aborted : bool)
(* [/api/progress/:key] *)
| SseOpen (k : string)
| SseKeepAlive (c : nat)
| SseClose (c : nat).

(** The [catch] block, lines 370-385.  [ytProc] and [tempFilePath] are the
    [let] variables of lines 184-185, [None] for [null]. *)
Definition catchBlock (ytProc : option nat) (tempFilePath : option string)
    (err : Err) (w : World) : World :=
  let w1 := match ytProc with
            | Some pid => with_procs (kill SIGTERM pid) w
            | None => w
            end in
  let w2 := match tempFilePath with
            | Some p => with_fs (cleanupTemp p) w1
            | None => w1
            end in
  if headersSent (res w2)
  then with_res end_ w2
  else with_res (json 500 (mkJson "Download failed" (OfErr err))) w2.

(** Line 194 *)
Definition safeTitleOf (meta : Meta) : string :=
  JS.substring0 60
    (JS.filter_chars
       (fun c => JS.is_word c || JS.is_space c
                 || (JS.code c =? 46) || (JS.code c =? 45))
       (or_else (title meta) "download")).

(** Line 190: [Math.floor(meta.duration || 0)] *)
Definition durationOf (meta : Meta) : Z :=
  Qfloor (default 0%Q (duration meta)).

(** Line 195 *)
Definition clientKeyOf (w : World) : string :=
  match key w with
  | Some k => if decide (k = EmptyString) then id w +:+ "_" +:+ format w else k
  | None => id w +:+ "_" +:+ format w
  end.

Definition dquote : string := String (Ascii.ascii_of_N 34) EmptyString.

Definition attachment (filename : string) : string :=
  "attachment; filename=" +:+ dquote +:+ JS.encodeURIComponent filename +:+ dquote.

(** Lines 197-272 *)
Definition mp3Branch (meta : Meta) (w : World) : World :=
  let filename := safeTitleOf meta +:+ ".mp3" in
  let w := with_res (fun r =>
      let r := setHeader "Content-Disposition" (attachment filename) r in
      let r := setHeader "Content-Type" "audio/mpeg" r in
      let r := setHeader "Cache-Control" "no-cache" r in
      let r := setHeader "Transfer-Encoding" "chunked" r in
      let r := setHeader "Connection" "keep-alive" r in
      let r := setHeader "Access-Control-Expose-Headers" "Content-Disposition" r in
      if hasFlushHeaders (env w) then sent r else r) w in
  let w := with_hub (fun h => snd (Hub.getEmitter (clientKeyOf w) h)) w in
  let '(ytProc, ps) := spawn (YtAudio (urlOf (id w))) (procs w) in
  let w := with_procs (fun _ => ps) w in
  with_phase (Mp3 ytProc (durationOf meta) (clientKeyOf w) filename FfRunning) w.

(** Lines 274-325, up to the [await] *)
Definition mp4Branch (meta : Meta) (w : World) : World :=
  let filename := safeTitleOf meta +:+ ".mp4" in
  let tempFilePath :=
    downloadsDir (env w) +:+ "/" +:+
    JS.squash_spaces false (safeTitleOf meta) +:+ "-" +:+ pretty (now (env w))
    +:+ ".mp4" in
  let '(dlProc, ps) := spawn (YtMerge tempFilePath (urlOf (id w))) (procs w) in
  let w := with_procs (fun _ => ps) w in
  with_phase (Mp4Download tempFilePath filename dlProc false false) w.

(** Lines 190-369: the handler once [ytDlpMetadata] has resolved. *)
Definition afterMeta (meta : Meta) (w : World) : World :=
  if 3600 <? durationOf meta then
    with_phase Replied
      (with_res (json 400 (mkJson "Video too long. Maximum 1 hour allowed." NoDetails)) w)
  else if decide (format w = "mp3") then mp3Branch meta w
  else if decide (format w = "mp4") then mp4Branch meta w
  else
    with_phase Replied
      (with_res (json 400 (mkJson "Invalid format. Use mp3 or mp4." NoDetails)) w).

(** Lines 327-364: the handler once the promise of line 293 has resolved. *)
Definition afterDownload (tempFilePath filename : string) (dlProc : nat)
    (aborted : bool) (w : World) : World :=
  match statSync tempFilePath (fs w) with
  | None =>
      with_phase (Mp4Download tempFilePath filename dlProc aborted true)
        (catchBlock None (Some tempFilePath) ErrNoTempFile w)
  | Some size =>
      let w := with_res (fun r =>
          let r := setHeader "Content-Disposition" (attachment filename) r in
          let r := setHeader "Content-Type" "video/mp4" r in
          let r := setHeader "Content-Length" (pretty size) r in
          let r := setHeader "Cache-Control" "no-cache" r in
          setHeader "Access-Control-Expose-Headers"
            "Content-Disposition, Content-Length" r) w in
      with_phase (Mp4Stream tempFilePath dlProc size RsOpen) w
  end.

(** The start of the handler: lines 180-189, up to the [await].  Without
    the wrapper [ytDlpMetadata] spawns [yt-dlp -j] (line 81). *)
Definition handle (e : Env) (rq : Request) (ps : list Proc) (f : FS) (h : Hub) : World :=
  let w := mkWorld e (params_id rq) (formatOf (query_format rq)) (query_key rq)
             ps f h res0 false (AwaitMeta None) in
  if ytDlpExecWrapper e then w
  else
    let '(pid, ps') := spawn (YtJson (urlOf (params_id rq))) ps in
    with_phase (AwaitMeta (Some pid)) (with_procs (fun _ => ps') w).

(** The [req.on('close')] callbacks that are registered in phase [ph], in
    registration order. *)
Definition onReqClose (aborted : bool) (w : World) : World :=
  match phase w with
  | Mp3 ytProc _ clientKey _ _ =>
      (* lines 263-269 *)
      if aborted || finished (res w) then
        let w := with_hub (Hub.sendProgress clientKey
                             (mkPayload St_aborted None None None)) w in
        with_procs (kill SIGKILL ytProc) w
      else w
  | Mp4Download t f dlProc _ settled =>
      (* [onClientCloseWhileDownloading], lines 284-289 *)
      with_phase (Mp4Download t f dlProc true settled)
        (with_procs (kill SIGKILL dlProc) w)
  | Mp4Stream t dlProc size rs =>
      (* lines 284-289, then lines 357-361 *)
      let w := with_procs (kill SIGKILL dlProc) w in
      let rs' := match rs with RsOpen => RsDestroyed | _ => rs end in
      with_phase (Mp4Stream t dlProc size rs') (with_fs (cleanupTemp t) w)
  | AwaitMeta _ | Replied => w
  end.

(** The callbacks of the fluent-ffmpeg command (lines 233-257) and its
    output pipe (line 260).  The callbacks are registered without a
    condition: each runs whenever the command emits its event, in whatever
    order the events come.  The pipe writes on the response and, with
    [end: true], ends it when the output of ffmpeg ends, which is before
    the command emits ['end'] or ['error']. *)
Definition onFfmpeg (ev : Event) (ytProc : nat) (dur : Z)
    (clientKey filename : string) (w : World) : World :=
  match ev with
  | FfStart =>
      with_hub (Hub.sendProgress clientKey
                  (mkPayload St_starting (Some (PInt 0)) None None)) w
  | FfProgress tm =>
      let seconds := toSeconds tm in
      let percent := percentOf dur seconds in
      with_hub (Hub.sendProgress clientKey
                  (mkPayload St_converting (Some percent) (Some tm) None)) w
  | FfData => with_res sent w
  | FfPipeEnd => with_res end_ w
  | FfError msg =>
      let w := with_procs (kill SIGTERM ytProc) w in
      let w := with_hub (Hub.sendProgress clientKey
                           (mkPayload St_error None None (Some ("Error: " +:+ msg)))) w in
      let w := if headersSent (res w)
               then with_res end_ w
               else with_res (json 500 (mkJson "Conversion failed" (OfFfmpeg msg))) w in
      with_phase (Mp3 ytProc dur clientKey filename FfFailed) w
  | FfEnd =>
      let w := with_hub (Hub.sendProgress clientKey
                           (mkPayload St_done (Some (PInt 100)) None None)) w in
      with_phase (Mp3 ytProc dur clientKey filename FfEnded) w
  | _ => w
  end.

(** The callbacks of [dlProc] (lines 305-324) and what follows the [await]. *)
Definition onDlProc (ev : Event) (t f : string) (dlProc : nat)
    (aborted settled : bool) (w : World) : World :=
  match ev, pstate <$> procs w !! dlProc with
  | DlWrite size, Some Running =>
      with_fs (fun s => mkFS (<[t := size]> (files s)) (unlinked s)) w
  | DlProcError, Some Running =>
      let w := with_procs (set_pstate SpawnFailed dlProc) w in
      if settled then w
      else with_phase (Mp4Download t f dlProc aborted true)
             (catchBlock None (Some t) ErrSpawn w)
  | DlProcClose code, Some (Running | SpawnFailed) =>
      let w := with_procs (set_pstate Closed dlProc) w in
      if aborted then
        let w := with_fs (cleanupTemp t) w in
        if settled then w
        else with_phase (Mp4Download t f dlProc aborted true)
               (catchBlock None (Some t) ErrClientDisconnected w)
      else if negb (code =? 0) then
        if settled then w
        else with_phase (Mp4Download t f dlProc aborted true)
               (catchBlock None (Some t) ErrFallbackFailed w)
      else
        if settled then w else afterDownload t f dlProc aborted w
  | _, _ => w
  end.

(** The callbacks of [readStream] (lines 348-355) and of its pipe. *)
Definition onReadStream (ev : Event) (t : string) (dlProc : nat) (size : N)
    (w : World) : World :=
  match ev with
  | ReadData => with_res sent w
  | ReadError =>
      with_phase (Mp4Stream t dlProc size RsErrored) (with_fs (cleanupTemp t) w)
  | ReadEnd =>
      with_phase (Mp4Stream t dlProc size RsEnded)
        (with_res end_ (with_fs (cleanupTemp t) w))
  | _ => w
  end.

(** [ytDlpMetadata] settling (lines 65-92) and the handler resuming. *)
Definition onMetadata (ev : Event) (proc : option nat) (w : World) : World :=
  let reject err := with_phase Replied (catchBlock None None err w) in
  match ev, proc with
  | WrapperResolved (Some meta), None => afterMeta meta w
  | WrapperResolved None, None => reject ErrParse
  | WrapperRejected, None => reject ErrWrapper
  | MetaProcError, Some pid =>
      with_procs (set_pstate SpawnFailed pid) (reject ErrNotOnPath)
  | MetaProcClose code parsed, Some pid =>
      let w := with_procs (set_pstate Closed pid) w in
      if negb (code =? 0) then with_phase Replied (catchBlock None None (ErrExited code) w)
      else match parsed with
           | Some meta => afterMeta meta w
           | None => with_phase Replied (catchBlock None None ErrParse w)
           end
  | _, _ => w
  end.

(** One turn of the event loop. *)
Definition step (w : World) (ev : Event) : World :=
  match ev with
  | SseOpen k => with_hub (Hub.subscribe k) w
  | SseKeepAlive c => with_hub (Hub.keepAlive c) w
  | SseClose c => with_hub (Hub.unsubscribe c) w
  | ReqClose aborted =>
      if closed w then w else with_closed true (onReqClose aborted w)
  | _ =>
      match phase w with
      | AwaitMeta proc => onMetadata ev proc w
      | Mp3 ytProc dur clientKey filename _ =>
          match ev with
          | YtProcExit => with_procs (set_pstate Closed ytProc) w
          | _ => onFfmpeg ev ytProc dur clientKey filename w
          end
      | Mp4Download t f dlProc aborted settled =>
          onDlProc ev t f dlProc aborted settled w
      | Mp4Stream t dlProc size rs =>
          match rs with
          | RsOpen => onReadStream ev t dlProc size w
          | _ => w
          end
      | Replied => w
      end
  end.

Definition run (w : World) (evs : list Event) : World := foldl step w evs.

(** A sample environment: no yt-dlp-exec wrapper, a response object with
    [flushHeaders], and a ten-second video. *)
Definition env0 : Env := mkEnv false true "/tmp/youtube-mp3-downloads" 1700000000000.
Definition fs0 : FS := mkFS ∅ [].
Definition meta0 : Meta := mkMeta (Some "My Song (live)") (Some (10 # 1)).

(** Sample requests for the video [abc], and the temporary file of the mp4
    one. *)
Definition rq_mp3 : Request := mkRequest "abc" (Some "mp3") None.
Definition rq_mp4 : Request := mkRequest "abc" (Some "MP4") None.
Definition rq_wav : Request := mkRequest "abc" (Some "wav") None.
Definition temp0 : string :=
  "/tmp/youtube-mp3-downloads/My_Song_live-1700000000000.mp4".

(** ** What the specification says, in its own words *)

Definition clamp (lo hi x : Z) : Z := Z.max lo (Z.min hi x).

(** The percentage of section 4.2: [elapsed / total] as a percentage,
    clamped to [0,100], and [null] for a total that is unknown (absent from
    the metadata, or zero). *)
Definition specPercent (total : option Q) (elapsed : Q) : Percent :=
  match total with
  | None => PNull
  | Some t =>
      if Qeq_bool t 0 then PNull
      else PInt (clamp 0 100 (Qfloor (elapsed / t * inject_Z 100)))
  end.

(** ** Observations on a world *)

(** The temporary artifact of the invocation, once line 277 has run. *)
Definition tempFilePathOf (w : World) : option string :=
  match phase w with
  | Mp4Download t _ _ _ _ | Mp4Stream t _ _ _ => Some t
  | _ => None
  end.

(** The terminal paths of an mp4 invocation. *)
Inductive TerminalPath :=
| NormalEnd             (* ['end'] of the read stream *)
| ReadFailure           (* ['error'] of the read stream *)
| ClientDisconnect      (* ['close'] of the request *)
| OrchestrationError.   (* the [catch] block *)

Definition terminalPath (w : World) : option TerminalPath :=
  match phase w with
  | Mp4Download _ _ _ aborted true =>
      Some (if aborted then ClientDisconnect else OrchestrationError)
  | Mp4Stream _ _ _ RsEnded => Some NormalEnd
  | Mp4Stream _ _ _ RsErrored => Some ReadFailure
  | Mp4Stream _ _ _ RsDestroyed => Some ClientDisconnect
  | _ => None
  end.

(** The delivery strategies of section 4.5, once the handler has set the
    headers of its download response. *)
Inductive Strategy := PipeThrough | FileThenStream.

Definition strategyOf (w : World) : option Strategy :=
  match phase w with
  | Mp3 _ _ _ _ _ => Some PipeThrough
  | Mp4Stream _ _ _ _ => Some FileThenStream
  | _ => None
  end.

(** How many times [fs.unlinkSync] removed the file [t]. *)
Definition deletions (t : string) (w : World) : nat :=
  length (filter (λ p, p = t) (unlinked (fs w))).

(** The download is still producing progress events for [k]. *)
Definition producing (w : World) (k : string) : bool :=
  match phase w with
  | Mp3 _ _ clientKey _ FfRunning => bool_decide (clientKey = k)
  | _ => false
  end.

(** Some open SSE connection subscribed to [k]. *)
Definition listening (h : Hub) (k : string) : bool :=
  existsb (fun s => sse_open s && bool_decide (sse_key s = k)) (conns h).

(** The event by which [ytDlpMetadata] resolves with [meta]. *)
Definition resolved (e : Env) (meta : Meta) : Event :=
  if ytDlpExecWrapper e then WrapperResolved (Some meta)
  else MetaProcClose 0 (Some meta).

Definition acceptedFormat (f : string) : bool :=
  bool_decide (f = "mp3") || bool_decide (f = "mp4").

Definition invalidFormatReply : Json :=
  mkJson "Invalid format. Use mp3 or mp4." NoDetails.

Definition tooLongReply : Json :=
  mkJson "Video too long. Maximum 1 hour allowed." NoDetails.

Definition isMetaLookup (p : Proc) : bool :=
  match cmd p with YtJson _ => true | _ => false end.

(** No child was sent the signal of the disconnect callbacks. *)
Definition never_killed (ps : list Proc) : Prop :=
  Forall (λ p, SIGKILL ∉ signals p) ps.

Definition sseClose (ev : Event) : bool :=
  match ev with SseClose _ => true | _ => false end.

(** *** Invariants of a download *)

(** The temporary file, the child that writes it and the log of deletions
    in each phase. *)
Definition artifact_inv (w : World) : Prop :=
  match phase w with
  | Mp4Download t _ dlProc _ false => unlinked (fs w) = []
  | Mp4Download t _ dlProc _ true =>
      is_running dlProc (procs w) = false ∧ existsSync t (fs w) = false
      ∧ (unlinked (fs w) = [] ∨ unlinked (fs w) = [t])
  | Mp4Stream t dlProc size RsOpen =>
      is_running dlProc (procs w) = false ∧ statSync t (fs w) = Some size
      ∧ unlinked (fs w) = []
  | Mp4Stream t dlProc size _ =>
      is_running dlProc (procs w) = false ∧ existsSync t (fs w) = false
      ∧ unlinked (fs w) = [t]
  | _ => unlinked (fs w) = []
  end.

(** The artifact [t] of the invocation was created: it is on disk, or it
    was and has been deleted. *)
Definition created (t : string) (w : World) : Prop :=
  tempFilePathOf w = Some t
  ∧ (existsSync t (fs w) = true ∨ unlinked (fs w) = [t]).

(** The [Content-Length] header in each phase. *)
Definition length_inv (w : World) : Prop :=
  match phase w with
  | Mp4Stream t _ size rs =>
      headers (res w) !! "Content-Length" = Some (pretty size)
      ∧ (rs = RsOpen → statSync t (fs w) = Some size)
  | _ => headers (res w) !! "Content-Length" = None
  end.

(** The response while ffmpeg runs, when the response object has
    [flushHeaders]. *)
Definition streaming_inv (w : World) : Prop :=
  match phase w with
  | AwaitMeta _ => res w = res0
  | Mp3 _ _ _ _ _ =>
      hasFlushHeaders (env w) = true →
      headersSent (res w) = true ∧ body (res w) = None ∧ statusCode (res w) = 200
  | _ => True
  end.

(** Which path a request is on: the lookup child exists exactly when
    there is no wrapper; the mp3 path is taken for the format [mp3] only,
    with a duration of at most 3600, and the mp4 path for [mp4] only. *)
Definition path_inv (w : World) : Prop :=
  match phase w with
  | AwaitMeta proc => proc = None ↔ ytDlpExecWrapper (env w) = true
  | Mp3 _ dur _ _ _ => format w = "mp3" ∧ dur <= 3600
  | Mp4Download _ _ _ _ _ | Mp4Stream _ _ _ _ => format w = "mp4"
  | Replied => True
  end.

(** The commands of the children of a request, oldest first. *)
Definition commands (w : World) : list Cmd := cmd <$> procs w.



(** The events by which the read stream of the mp4 path is over. *)
Definition streamOver (ev : Event) : bool :=
  match ev with ReadEnd | ReadError => true | _ => false end.

(** The request is closed and no callback of the handler has noticed. *)
Definition unnoticed_close (w : World) : Prop :=
  closed w = true
  ∧ match phase w with
    | Mp4Download _ _ _ aborted _ => aborted = false
    | Mp4Stream _ _ _ rs => rs ≠ RsDestroyed
    | _ => True
    end.

(** The mp4 path before the file is streamed: while the promise of line 293
    is pending the child runs and nothing was answered. *)
Definition download_inv (w : World) : Prop :=
  match phase w with
  | Mp4Download _ _ dlProc _ false =>
      is_running dlProc (procs w) = true ∧ res w = res0
  | AwaitMeta _ => res w = res0
  | _ => True
  end.

(** *** The registry and its connections *)

(** What was written so far on connection [c]. *)
Definition output (c : nat) (h : Hub) : list SseLine :=
  match conns h !! c with Some s => sse_out s | None => [] end.

(** The registry, its emitters and the connections fit together: the map
    points to allocated emitters, one emitter per key; the listeners of an
    emitter are distinct open connections that hold it; and every open
    connection listens on the emitter registered under its key. *)
Definition hub_wf (h : Hub) : Prop :=
  (∀ k e, progressEmitters h !! k = Some e → (e < length (emitters h))%nat)
  ∧ (∀ k1 k2 e, progressEmitters h !! k1 = Some e →
                progressEmitters h !! k2 = Some e → k1 = k2)
  ∧ (∀ e ls, emitters h !! e = Some ls → NoDup ls)
  ∧ (∀ e ls c, emitters h !! e = Some ls → c ∈ ls →
       ∃ s, conns h !! c = Some s ∧ sse_open s = true ∧ sse_emitter s = e)
  ∧ (∀ c s, conns h !! c = Some s → sse_open s = true →
       progressEmitters h !! sse_key s = Some (sse_emitter s)
       ∧ ∃ ls, emitters h !! sse_emitter s = Some ls ∧ c ∈ ls).

(** What one [sendProgress(k, p)] adds to the output of the connection
    [s]. *)
Definition delivered (k : string) (p : Payload) (s : Sse) : list SseLine :=
  if sse_open s && bool_decide (sse_key s = k) then [Data p] else [].

(** A request for a format that is not accepted: which children exist and
    what was answered. *)
Definition rejected_inv (w : World) : Prop :=
  Forall (λ p, isMetaLookup p = true) (procs w)
  ∧ (length (procs w) ≤ 1)%nat
  ∧ match phase w with
    | AwaitMeta _ => res w = res0
    | Replied =>
        finished (res w) = true
        ∧ ((statusCode (res w) = 400
            ∧ (body (res w) = Some tooLongReply ∨ body (res w) = Some invalidFormatReply))
           ∨ (statusCode (res w) = 500
              ∧ ∃ err, body (res w) = Some (mkJson "Download failed" (OfErr err))))
    | _ => False
    end.

(** *** Sentences of the specification, as they are written *)

(** Section 5: an entry leaves the registry only when its last subscriber
    is gone and its producing operation has ended. *)
Definition removal_is_reference_counted : Prop :=
  ∀ (e : Env) (rq : Request) (evs : list Event) (ev : Event) (k : string),
    let w := run (handle e rq [] fs0 Hub.empty) evs in
    is_Some (progressEmitters (hub w) !! k) →
    progressEmitters (hub (step w ev)) !! k = None →
    listening (hub (step w ev)) k = false ∧ producing (step w ev) k = false.

(** Section 8: a format outside the accepted set yields a 400 ... *)
Definition invalid_format_always_400 : Prop :=
  ∀ (e : Env) (rq : Request) (evs : list Event),
    acceptedFormat (formatOf (query_format rq)) = false →
    let w := run (handle e rq [] fs0 Hub.empty) evs in
    finished (res w) = true →
    statusCode (res w) = 400 ∧ is_Some (body (res w)).

(** ... and spawns zero subprocesses. *)
Definition invalid_format_spawns_nothing : Prop :=
  ∀ (e : Env) (rq : Request) (evs : list Event),
    acceptedFormat (formatOf (query_format rq)) = false →
    let w := run (handle e rq [] fs0 Hub.empty) evs in
    finished (res w) = true →
    procs w = [].

(** Section 8: a duration over the ceiling yields a 400 ... *)
Definition over_ceiling_rejected : Prop :=
  ∀ (e : Env) (rq : Request) (meta : Meta) (d : Q),
    duration meta = Some d → (3600 < d)%Q →
    statusCode (res (step (handle e rq [] fs0 Hub.empty) (resolved e meta))) = 400.

(** ... before any subprocess is spawned. *)
Definition over_ceiling_spawns_nothing : Prop :=
  ∀ (e : Env) (rq : Request) (meta : Meta),
    3600 < durationOf meta →
    procs (step (handle e rq [] fs0 Hub.empty) (resolved e meta)) = [].

(** Section 4.2: the percentage is the clamped ratio of the elapsed time and
    the duration of the metadata. *)
Definition percent_is_clamped : Prop :=
  ∀ (meta : Meta) (tm : option string) (s : Q),
    F64.value (toSeconds tm) = Some s →
    percentOf (durationOf meta) (toSeconds tm) = specPercent (duration meta) s.

(** *** Observations for the further properties *)

(** The calls that reach the progress helpers, from either endpoint. *)
Inductive HubOp :=
| OpSubscribe (k : string)                 (* a request to [/api/progress/:key] *)
| OpClose (c : nat)                        (* ['close'] of that request *)
| OpKeepAlive (c : nat)                    (* a tick of its interval *)
| OpPublish (k : string) (p : Payload)     (* [sendProgress(key, payload)] *)
| OpGetEmitter (k : string).               (* [getEmitter(key)] *)

Definition hub_step (h : Hub) (op : HubOp) : Hub :=
  match op with
  | OpSubscribe k => Hub.subscribe k h
  | OpClose c => Hub.unsubscribe c h
  | OpKeepAlive c => Hub.keepAlive c h
  | OpPublish k p => Hub.sendProgress k p h
  | OpGetEmitter k => (Hub.getEmitter k h).2
  end.

Definition hub_run (h : Hub) (ops : list HubOp) : Hub := foldl hub_step h ops.

(** What one call writes on an open connection [c] subscribed to [k]. *)
Definition written (c : nat) (k : string) (op : HubOp) : list SseLine :=
  match op with
  | OpPublish k' p => if decide (k' = k) then [Data p] else []
  | OpKeepAlive c' => if decide (c' = c) then [KeepAlive] else []
  | _ => []
  end.

(** The call is the ['close'] of connection [c]. *)
Definition closes (c : nat) (op : HubOp) : bool :=
  match op with OpClose c' => bool_decide (c' = c) | _ => false end.

(** The download seen without the registry. *)
Definition erase (w : World) : World := with_hub (λ _, Hub.empty) w.

(** The events of [/api/progress/:key]. *)
Definition isSse (ev : Event) : bool :=
  match ev with SseOpen _ | SseKeepAlive _ | SseClose _ => true | _ => false end.

(** The response of the handler: untouched while the lookup or the
    download is pending; a JSON body only together with sent headers and
    an error status. *)
Definition reply_inv (w : World) : Prop :=
  match phase w with
  | AwaitMeta _ => res w = res0
  | Mp4Download _ _ _ _ false => res w = res0
  | _ => True
  end
  ∧ ((statusCode (res w) = 200 ∧ body (res w) = None)
     ∨ ((statusCode (res w) = 400 ∨ statusCode (res w) = 500)
        ∧ is_Some (body (res w)) ∧ headersSent (res w) = true
        ∧ finished (res w) = true)).

(** How [ytDlpMetadata] fails: the event that settles it and the error it
    rejects with (lines 70-77 and 86-90). *)
Definition lookupFailure (e : Env) (ev : Event) : option Err :=
  if ytDlpExecWrapper e then
    match ev with
    | WrapperResolved None => Some ErrParse
    | WrapperRejected => Some ErrWrapper
    | _ => None
    end
  else
    match ev with
    | MetaProcError => Some ErrNotOnPath
    | MetaProcClose code parsed =>
        if negb (code =? 0) then Some (ErrExited code)
        else match parsed with None => Some ErrParse | Some _ => None end
    | _ => None
    end.

Definition failedReply (err : Err) : Json := mkJson "Download failed" (OfErr err).


Definition p_done : Payload := mkPayload St_done (Some (PInt 100)) None None.
Definition p_start : Payload := mkPayload St_starting (Some (PInt 0)) None None.

(** *** File names *)

(** Every character of [s] satisfies [p]. *)
Fixpoint all_chars (p : ascii -> bool) (s : string) : bool :=
  match s with
  | EmptyString => true
  | String c r => p c && all_chars p r
  end.

(** The characters the sanitiser of line 194 keeps: [\w], [\s], the dot
    and the hyphen. *)
Definition titleChar (c : ascii) : bool :=
  JS.is_word c || JS.is_space c || (JS.code c =? 46) || (JS.code c =? 45).

(** Letters, digits, underscore, dot and hyphen: no slash, no white space. *)
Definition pathChar (c : ascii) : bool :=
  JS.is_word c || (JS.code c =? 46) || (JS.code c =? 45).

(** Printable ASCII without the double quote, the semicolon and the
    backslash. *)
Definition headerChar (c : ascii) : bool :=
  (32 <? JS.code c) && (JS.code c <? 127)
  && negb (JS.code c =? 34) && negb (JS.code c =? 59) && negb (JS.code c =? 92).

(** The temporary file of a download is a direct entry of the temporary
    directory. *)
Definition temp_inv (w : World) : Prop :=
  ∀ t, tempFilePathOf w = Some t ->
    ∃ base, t = downloadsDir (env w) +:+ "/" +:+ base
            ∧ all_chars pathChar base = true
            ∧ (6 ≤ String.length base)%nat.

(** * Properties *)

(** ** The progress percentage *)

(** *** Rounding keeps the sign *)

Section Rounding.

(** A property kept by [f] is kept by its iterates. *)
Lemma iter_pos_inv {A} (P : A -> Prop) (f : A -> A) :
  (∀ x, P x -> P (f x)) -> ∀ n x, P x -> P (SpecFloat.iter_pos f n x).
Proof.
  intros Hf. induction n as [n IH|n IH|]; intros x Hx; simpl; auto.
Qed.

Lemma shr_1_nonneg mrs : 0 <= shr_m mrs -> 0 <= shr_m (shr_1 mrs).
Proof.
  destruct mrs as [m r s]. simpl.
  destruct m as [|[p|p|]|p]; simpl; lia.
Qed.

Lemma shr_nonneg mrs e n : 0 <= shr_m mrs -> 0 <= shr_m (shr mrs e n).1.
Proof.
  intros H. destruct n; simpl; try done.
  by apply (iter_pos_inv (λ x, 0 <= shr_m x)); [apply shr_1_nonneg |].
Qed.

Lemma shr_fexp_nonneg m e l :
  0 <= m -> 0 <= shr_m (shr_fexp F64.prec F64.emax m e l).1.
Proof.
  intros H. unfold shr_fexp. apply shr_nonneg.
  by destruct l as [|[]].
Qed.

Lemma round_nearest_even_nonneg m l : 0 <= m -> 0 <= round_nearest_even m l.
Proof.
  intros H. unfold round_nearest_even.
  destruct l as [|[]]; try done; [destruct (Z.even m) |]; lia.
Qed.

(** Rounding a magnitude gives a number of the sign asked for. *)
Lemma binary_round_aux_signed s mx ex lx :
  0 <= mx -> F64.signed s (binary_round_aux F64.prec F64.emax s mx ex lx).
Proof.
  intros H. unfold binary_round_aux.
  pose proof (shr_fexp_nonneg mx ex lx H) as H1.
  destruct (shr_fexp F64.prec F64.emax mx ex lx) as [mrs1 e1]. simpl in H1.
  pose proof (shr_fexp_nonneg _ e1 loc_Exact
                (round_nearest_even_nonneg _ (loc_of_shr_record mrs1) H1)) as H2.
  destruct (shr_fexp F64.prec F64.emax _ e1 loc_Exact) as [mrs2 e2]. simpl in H2.
  destruct (shr_m mrs2) as [|p|p]; simpl; [done | | lia].
  by destruct (e2 <=? F64.emax - F64.prec).
Qed.

Lemma div_signed sx x sy my ey :
  F64.signed sx x ->
  F64.signed (xorb sx sy) (F64.div x (S754_finite sy my ey)).
Proof.
  destruct x as [s|s| |s mx ex]; simpl; try done; try by intros ->.
  intros ->. unfold F64.div, SFdiv.
  destruct (SFdiv_core_binary _ _ _ _ _ _) as [[mz ez] lz] eqn:E.
  apply binary_round_aux_signed.
  unfold SFdiv_core_binary in E.
  destruct (Z.div_eucl _ _) as [q r] eqn:D in E. simplify_eq.
  match type of D with Z.div_eucl ?a ?b = _ =>
    assert (Ha : 0 <= a); [| pose proof (Z.div_pos a b Ha ltac:(lia)) as Hq;
                             unfold Z.div in Hq; by rewrite D in Hq]
  end.
  destruct (_ - _ - _) eqn:Es; try done. apply Z.shiftl_nonneg. lia.
Qed.

Lemma mul_signed sx x sy my ey :
  F64.signed sx x ->
  F64.signed (xorb sx sy) (F64.mul x (S754_finite sy my ey)).
Proof.
  destruct x as [s|s| |s mx ex]; simpl; try done; try by intros ->.
  intros ->. by apply binary_round_aux_signed.
Qed.

Lemma floorZ_nonneg m e : 0 <= F64.floorZ false m e.
Proof.
  unfold F64.floorZ. destruct (0 <=? e) eqn:E.
  - apply Z.mul_nonneg_nonneg; [lia | apply Z.pow_nonneg; lia].
  - apply Z.div_pos; [lia | apply Z.pow_pos_nonneg; lia].
Qed.

Lemma of_Z_upto (n : nat) (d : Z) :
  F64.positive_upto n = true -> 0 < d <= Z.of_nat n ->
  ∃ m e, F64.of_Z d = S754_finite false m e.
Proof.
  unfold F64.positive_upto. rewrite forallb_forall. intros Hall Hd.
  specialize (Hall (Z.to_nat d)). rewrite Z2Nat.id in Hall by lia.
  destruct (F64.of_Z d) as [| | |[] m e]; try (by eauto);
    (assert (false = true); [apply Hall, in_seq; lia | done]).
Qed.

End Rounding.

(** *** The percentage *)

Section Percent.

(** The decimal literal [0.1] denotes the double [0x1.999999999999ap-4],
    and a timemark is read field by field. *)
Example of_decimal_tenth :
  F64.of_decimal false 1 (-1) = S754_finite false 7205759403792794 (-56).
Proof. vm_compute. reflexivity. Qed.

Example toSeconds_timemark :
  toSeconds (Some "01:02:03.50") = F64.of_decimal false 37235 (-1).
Proof. vm_compute. reflexivity. Qed.

(** [(29 / 100) * 100] is the double just below 29. *)
Example quotient_below :
  F64.mul (F64.div (F64.of_Z 29) (F64.of_Z 100)) (F64.of_Z 100)
  = S754_finite false 8162774324609023 (-48)
  ∧ F64.of_Z 29 = S754_finite false 8162774324609024 (-48).
Proof. split; vm_compute; reflexivity. Qed.

Lemma percentOf_unknown seconds : percentOf 0 seconds = PNull.
Proof. reflexivity. Qed.

Lemma min100_floor_cap x n : min100_floor x = PInt n -> n <= 100.
Proof.
  destruct x as [s|[]| |s m e]; simpl; intros ?; simplify_eq; lia.
Qed.

Lemma min100_floor_nonneg x :
  F64.signed false x -> ∃ n, min100_floor x = PInt n ∧ 0 <= n <= 100.
Proof.
  destruct x as [s|s| |s m e]; simpl; try done; intros ->.
  - exists 0. split; [done | lia].
  - exists 100. split; [done | lia].
  - eexists. split; [done |]. pose proof (floorZ_nonneg m e). lia.
Qed.

(** [0 <= x]: a number that is not negative, or the negative zero. *)
Lemma leb_zero x :
  F64.leb F64.zero x = true -> F64.signed false x ∨ x = S754_zero true.
Proof.
  destruct x as [[]|[]| |[] m e]; simpl; try done; auto.
Qed.

Lemma percentOf_range (dur : Z) (seconds : F64.float) :
  0 < dur <= 3600 -> F64.leb F64.zero seconds = true ->
  ∃ n, percentOf dur seconds = PInt n ∧ 0 <= n <= 100.
Proof.
  intros Hd Hs. unfold percentOf.
  destruct (Z.eqb_spec dur 0) as [->|_]; [lia |].
  destruct (of_Z_upto 3600 dur) as (m & e & ->); [by vm_compute | lia |].
  assert (H100 : F64.of_Z 100 = S754_finite false 7036874417766400 (-46))
    by (vm_compute; reflexivity).
  rewrite H100.
  destruct (leb_zero _ Hs) as [Hpos | ->].
  - apply min100_floor_nonneg.
    apply (mul_signed false _ false), (div_signed false _ false), Hpos.
  - exists 0. split; [done | lia].
Qed.

Lemma durationOf_absent (meta : Meta) :
  duration meta = None -> durationOf meta = 0.
Proof. unfold durationOf. intros ->. reflexivity. Qed.

Lemma durationOf_zero (meta : Meta) (d : Q) :
  duration meta = Some d -> (d == 0)%Q -> durationOf meta = 0.
Proof.
  unfold durationOf. intros -> Hd. simpl.
  rewrite (Qfloor_comp _ _ Hd). reflexivity.
Qed.

End Percent.

(** ** The registry *)

Section Registry.

Implicit Types (h : Hub) (k key : string) (payload : Payload).

Lemma keys_emit e payload h :
  progressEmitters (Hub.emit e payload h) = progressEmitters h.
Proof. reflexivity. Qed.

Lemma keys_sendProgress key payload h :
  progressEmitters (Hub.sendProgress key payload h) = progressEmitters h.
Proof. unfold Hub.sendProgress. by destruct (_ !! key). Qed.

Lemma keys_keepAlive c h :
  progressEmitters (Hub.keepAlive c h) = progressEmitters h.
Proof. reflexivity. Qed.

Lemma keys_getEmitter key h k :
  is_Some (progressEmitters h !! k) ->
  is_Some (progressEmitters (Hub.getEmitter key h).2 !! k).
Proof.
  intros Hk. unfold Hub.getEmitter.
  destruct (progressEmitters h !! key) eqn:E; simpl; [done |].
  rewrite lookup_insert. case_decide; [by eexists | done].
Qed.

Lemma keys_subscribe key h k :
  is_Some (progressEmitters h !! k) ->
  is_Some (progressEmitters (Hub.subscribe key h) !! k).
Proof.
  intros Hk. unfold Hub.subscribe.
  pose proof (keys_getEmitter key h k Hk) as H.
  destruct (Hub.getEmitter key h) as [e h1]. exact H.
Qed.

Lemma sendProgress_absent key payload h :
  progressEmitters h !! key = None -> Hub.sendProgress key payload h = h.
Proof. intros H. unfold Hub.sendProgress. by rewrite H. Qed.

Lemma subscribe_conns key h :
  conns (Hub.subscribe key h)
  = conns h ++ [mkSse key (Hub.getEmitter key h).1 [] true].
Proof.
  unfold Hub.subscribe, Hub.getEmitter.
  by destruct (progressEmitters h !! key).
Qed.

(** Closing connection [c] removes the key exactly when [c] was open and
    was the last listener of its emitter. *)
Lemma keys_unsubscribe c h k :
  progressEmitters (Hub.unsubscribe c h) !! k =
  match conns h !! c with
  | Some s =>
      if sse_open s
         && bool_decide (Hub.remove_first c (default [] (emitters h !! sse_emitter s)) = [])
         && bool_decide (sse_key s = k)
      then None else progressEmitters h !! k
  | None => progressEmitters h !! k
  end.
Proof.
  unfold Hub.unsubscribe.
  destruct (conns h !! c) as [s|] eqn:Ec; [| done].
  destruct (sse_open s) eqn:Eo; [| done]. simpl.
  unfold Hub.listenerCount. simpl.
  rewrite list_lookup_alter, decide_True by done.
  destruct (emitters h !! sse_emitter s) as [ls|] eqn:El; simpl.
  - destruct (Hub.remove_first c ls) eqn:Er; simpl; [| done].
    rewrite lookup_delete.
    case_decide; case_bool_decide; simplify_eq; done.
  - rewrite lookup_delete.
    case_decide; case_bool_decide; simplify_eq; done.
Qed.

End Registry.

(** ** The registry and its connections fit together *)

Section HubInvariant.

Implicit Types (h : Hub) (c e : nat) (k : string) (p : Payload).

Lemma hub_wf_empty : hub_wf Hub.empty.
Proof.
  unfold hub_wf, Hub.empty. simpl. split_and!; intros; by simplify_map_eq.
Qed.

(** One listener writes on one connection. *)
Lemma onProgress_lookup p a (cs : list Sse) c :
  Hub.onProgress p a cs !! c
  = (λ s, if decide (a = c)
          then mkSse (sse_key s) (sse_emitter s) (sse_out s ++ [Data p]) (sse_open s)
          else s) <$> cs !! c.
Proof.
  unfold Hub.onProgress. rewrite list_lookup_alter.
  destruct (decide (a = c)) as [->|?]; destruct (cs !! c); simpl; done.
Qed.

Lemma emit_lookup p (ls : list nat) (cs : list Sse) c :
  NoDup ls ->
  foldl (λ cs a, Hub.onProgress p a cs) cs ls !! c
  = (λ s, if decide (c ∈ ls)
          then mkSse (sse_key s) (sse_emitter s) (sse_out s ++ [Data p]) (sse_open s)
          else s) <$> cs !! c.
Proof.
  intros Hnd. revert cs. induction Hnd as [|a ls Ha Hnd IH]; intros cs.
  - cbn [foldl]. destruct (cs !! c) as [s|]; [| done]. cbn.
    destruct (decide (c ∈ [])) as [Hin|_]; [| done].
    by apply not_elem_of_nil in Hin.
  - cbn [foldl]. rewrite IH, onProgress_lookup.
    destruct (cs !! c) as [s|]; [| done]. cbn. f_equal.
    destruct (decide (a = c)) as [->|Hne].
    + rewrite decide_False by done. rewrite (decide_True (P := c ∈ c :: ls)) by left.
      done.
    + destruct (decide (c ∈ ls)) as [Hin|Hin].
      * rewrite (decide_True (P := c ∈ a :: ls)) by (by right). done.
      * rewrite (decide_False (P := c ∈ a :: ls)); [done |].
        intros [?|?]%elem_of_cons; congruence.
Qed.

(** [emit] changes nothing but the outputs of the listeners. *)
Lemma emit_conn e p h c :
  NoDup (default [] (emitters h !! e)) ->
  conns (Hub.emit e p h) !! c
  = (λ s, if decide (c ∈ default [] (emitters h !! e))
          then mkSse (sse_key s) (sse_emitter s) (sse_out s ++ [Data p]) (sse_open s)
          else s) <$> conns h !! c.
Proof. intros Hnd. unfold Hub.emit. simpl. by apply emit_lookup. Qed.

Lemma hub_wf_listeners h e : hub_wf h -> NoDup (default [] (emitters h !! e)).
Proof.
  intros (_ & _ & W3 & _). destruct (emitters h !! e) eqn:E; simpl.
  - by eapply W3.
  - apply NoDup_nil_2.
Qed.

Lemma hub_wf_emit e p h : hub_wf h -> hub_wf (Hub.emit e p h).
Proof.
  intros Hwf. pose proof (hub_wf_listeners h e Hwf) as Hnd.
  destruct Hwf as (W1 & W2 & W3 & W4 & W5).
  unfold hub_wf. split_and!; try done.
  - intros e' ls c He Hc. change (emitters (Hub.emit e p h)) with (emitters h) in He.
    destruct (W4 e' ls c He Hc) as (s & Hs & Ho & Hem).
    rewrite emit_conn, Hs by done. simpl.
    eexists. split; [done |]. by case_decide.
  - intros c s Hs Ho. rewrite emit_conn in Hs by done.
    destruct (conns h !! c) as [s0|] eqn:E; simplify_eq/=.
    change (progressEmitters (Hub.emit e p h)) with (progressEmitters h).
    change (emitters (Hub.emit e p h)) with (emitters h).
    case_decide; simpl in *; by apply W5.
Qed.

Lemma hub_wf_sendProgress k p h : hub_wf h -> hub_wf (Hub.sendProgress k p h).
Proof.
  intros Hwf. unfold Hub.sendProgress.
  destruct (progressEmitters h !! k); [by apply hub_wf_emit | done].
Qed.

Lemma keepAlive_conn c h c' :
  conns (Hub.keepAlive c h) !! c'
  = (λ s, if decide (c = c') then
            (if sse_open s
             then mkSse (sse_key s) (sse_emitter s) (sse_out s ++ [KeepAlive]) true
             else s)
          else s) <$> conns h !! c'.
Proof.
  unfold Hub.keepAlive. simpl. rewrite list_lookup_alter.
  destruct (decide (c = c')) as [->|?]; destruct (conns h !! c'); done.
Qed.

Lemma hub_wf_keepAlive c h : hub_wf h -> hub_wf (Hub.keepAlive c h).
Proof.
  intros (W1 & W2 & W3 & W4 & W5).
  unfold hub_wf. split_and!; try done.
  - intros e ls c' He Hc. change (emitters (Hub.keepAlive c h)) with (emitters h) in He.
    destruct (W4 e ls c' He Hc) as (s & Hs & Ho & Hem).
    rewrite keepAlive_conn, Hs. simpl. eexists. split; [done |].
    case_decide; [rewrite Ho |]; done.
  - intros c' s Hs Ho. rewrite keepAlive_conn in Hs.
    change (progressEmitters (Hub.keepAlive c h)) with (progressEmitters h).
    change (emitters (Hub.keepAlive c h)) with (emitters h).
    destruct (conns h !! c') as [s0|] eqn:E; simplify_eq/=.
    case_decide; [destruct (sse_open s0) eqn:Eo |]; simpl in *; by apply W5.
Qed.

Lemma hub_wf_getEmitter k h : hub_wf h -> hub_wf (Hub.getEmitter k h).2.
Proof.
  intros (W1 & W2 & W3 & W4 & W5). unfold Hub.getEmitter.
  destruct (progressEmitters h !! k) eqn:Ek; simpl; [done |].
  unfold hub_wf. simpl. split_and!.
  - intros k' e. rewrite lookup_insert, length_app. simpl.
    case_decide; intros ?; simplify_eq; [lia |]. apply W1 in H0. lia.
  - intros k1 k2 e. rewrite !lookup_insert.
    repeat case_decide; intros ? ?; simplify_eq; try done.
    + apply W1 in H2. lia.
    + apply W1 in H1. lia.
    + by eapply W2.
  - intros e ls [He|[_ He]]%lookup_app_Some; [by eapply W3 |].
    destruct (e - length (emitters h))%nat; simplify_eq/=. apply NoDup_nil_2.
  - intros e ls c [He|[_ He]]%lookup_app_Some Hc; [by eapply W4 |].
    destruct (e - length (emitters h))%nat; simplify_eq/=.
    by apply not_elem_of_nil in Hc.
  - intros c s Hs Ho. destruct (W5 c s Hs Ho) as (Hk & ls & Hls & Hc).
    split.
    + rewrite lookup_insert_ne; [done |]. intros ->. congruence.
    + exists ls. split; [| done]. by apply lookup_app_l_Some.
Qed.


Lemma getEmitter_registered k h :
  progressEmitters (Hub.getEmitter k h).2 !! k = Some (Hub.getEmitter k h).1
  ∧ conns (Hub.getEmitter k h).2 = conns h.
Proof.
  unfold Hub.getEmitter. destruct (progressEmitters h !! k) eqn:E; simpl; [done |].
  by rewrite lookup_insert_eq.
Qed.

Lemma hub_wf_subscribe k h : hub_wf h -> hub_wf (Hub.subscribe k h).
Proof.
  intros Hwf. apply (hub_wf_getEmitter k) in Hwf.
  destruct (getEmitter_registered k h) as [Hk _].
  unfold Hub.subscribe. destruct (Hub.getEmitter k h) as [e h1]. simpl in *.
  destruct Hwf as (W1 & W2 & W3 & W4 & W5).
  assert (Hfresh : ∀ e' ls, emitters h1 !! e' = Some ls → length (conns h1) ∉ ls).
  { intros e' ls He Hin. destruct (W4 e' ls _ He Hin) as (s & Hs & _).
    apply lookup_lt_Some in Hs. lia. }
  unfold hub_wf. simpl. split_and!.
  - intros k' e' Hk'. rewrite length_alter. by eapply W1.
  - done.
  - intros e' ls. rewrite list_lookup_alter.
    destruct (decide (e = e')) as [->|?]; [| by apply W3].
    destruct (emitters h1 !! e') as [ls0|] eqn:E; intros ?; simplify_eq/=.
    apply NoDup_app. split_and!; [by eapply W3 | | apply NoDup_singleton].
    intros x Hx ->%list_elem_of_singleton. by eapply Hfresh.
  - intros e' ls c. rewrite list_lookup_alter.
    destruct (decide (e = e')) as [->|?].
    + destruct (emitters h1 !! e') as [ls0|] eqn:E; intros ? Hc; simplify_eq/=.
      apply elem_of_app in Hc as [Hc | ->%list_elem_of_singleton].
      * destruct (W4 _ _ _ E Hc) as (s & Hs & Ho & He). exists s.
        split; [by apply lookup_app_l_Some | done].
      * exists (mkSse k e' [] true). split; [| done].
        rewrite lookup_app_r, Nat.sub_diag by done. done.
    + intros He Hc. destruct (W4 _ _ _ He Hc) as (s & Hs & Ho & He'). exists s.
      split; [by apply lookup_app_l_Some | done].
  - intros c s [Hs|[Hlen Hs]]%lookup_app_Some Ho.
    + destruct (W5 c s Hs Ho) as (Hkey & ls & Hls & Hc). split; [done |].
      rewrite list_lookup_alter.
      destruct (decide (e = sse_emitter s)) as [->|?]; [| eauto].
      rewrite Hls. simpl. eexists. split; [done |]. apply elem_of_app. by left.
    + destruct (c - length (conns h1))%nat eqn:Ec; simplify_eq/=.
      split; [done |]. rewrite list_lookup_alter, decide_True by done.
      destruct (lookup_lt_is_Some_2 (emitters h1) e) as [ls Hls]; [by eapply W1 |].
      rewrite Hls. simpl. eexists. split; [done |].
      apply elem_of_app. right. apply list_elem_of_singleton. lia.
Qed.

Lemma remove_first_elem c (ls : list nat) x :
  NoDup ls -> x ∈ Hub.remove_first c ls ↔ x ∈ ls ∧ x ≠ c.
Proof.
  induction 1 as [|a ls Ha Hnd IH]; simpl.
  - split; [by intros ?%not_elem_of_nil | by intros [?%not_elem_of_nil _]].
  - destruct (decide (a = c)) as [->|Hne].
    + split.
      * intros Hx. split; [by right |]. by intros ->.
      * intros [[->|Hx]%elem_of_cons Hn]; done.
    + rewrite !elem_of_cons, IH. split.
      * intros [->|[Hx Hn]]; [split; [by left | done] | split; [by right | done]].
      * intros [[->|Hx] Hn]; [by left | by right].
Qed.

Lemma remove_first_NoDup c (ls : list nat) :
  NoDup ls -> NoDup (Hub.remove_first c ls).
Proof.
  induction 1 as [|a ls Ha Hnd IH]; simpl; [apply NoDup_nil_2 |].
  destruct (decide (a = c)); [done |].
  apply NoDup_cons. split; [| done].
  intros [Hin _]%remove_first_elem; done.
Qed.

Lemma hub_wf_unsubscribe c h : hub_wf h -> hub_wf (Hub.unsubscribe c h).
Proof.
  intros Hwf. unfold Hub.unsubscribe.
  destruct (conns h !! c) as [s|] eqn:Hs; [| done].
  destruct (sse_open s) eqn:Ho; [| done].
  destruct Hwf as (W1 & W2 & W3 & W4 & W5).
  destruct (W5 c s Hs Ho) as (Hkey & ls & Hls & Hc).
  set (h1 := mkHub (alter (Hub.remove_first c) (sse_emitter s) (emitters h))
               (progressEmitters h)
               (alter (λ s0, mkSse (sse_key s0) (sse_emitter s0) (sse_out s0) false)
                  c (conns h))).
  assert (Hcount : Hub.listenerCount (sse_emitter s) h1
                   = length (Hub.remove_first c ls)).
  { unfold Hub.listenerCount, h1. simpl.
    by rewrite list_lookup_alter, decide_True, Hls by done. }
  assert (Hconn : ∀ c' s', c' ≠ c → conns h !! c' = Some s' →
                  conns h1 !! c' = Some s').
  { intros c' s' Hne Hs'. unfold h1. simpl.
    by rewrite list_lookup_alter, decide_False. }
  assert (H3 : ∀ e ls', emitters h1 !! e = Some ls' → NoDup ls').
  { intros e ls'. unfold h1. simpl. rewrite list_lookup_alter.
    destruct (decide (sse_emitter s = e)) as [<-|?]; [| by apply W3].
    rewrite Hls. intros ?; simplify_eq/=. apply remove_first_NoDup. by eapply W3. }
  assert (H4 : ∀ e ls' c', emitters h1 !! e = Some ls' → c' ∈ ls' →
               ∃ s', conns h1 !! c' = Some s' ∧ sse_open s' = true ∧ sse_emitter s' = e).
  { intros e ls' c'. unfold h1 at 1. simpl. rewrite list_lookup_alter.
    destruct (decide (sse_emitter s = e)) as [<-|Hne].
    - rewrite Hls. intros ? Hin; simplify_eq/=.
      apply remove_first_elem in Hin as [Hin Hn]; [| by eapply W3].
      destruct (W4 _ _ _ Hls Hin) as (s' & Hs' & Ho' & He'). eauto.
    - intros He Hin. destruct (W4 _ _ _ He Hin) as (s' & Hs' & Ho' & He').
      exists s'. split; [| done]. apply Hconn; [| done].
      intros ->. congruence. }
  assert (H5 : ∀ c' s', conns h1 !! c' = Some s' → sse_open s' = true →
               c' ≠ c ∧ conns h !! c' = Some s'
               ∧ ∃ ls', emitters h1 !! sse_emitter s' = Some ls' ∧ c' ∈ ls').
  { intros c' s'. unfold h1 at 1. simpl. rewrite list_lookup_alter.
    destruct (decide (c = c')) as [<-|Hne].
    - rewrite Hs. intros ? ?; simplify_eq/=.
    - intros Hs' Ho'. split_and!; [done | done |].
      destruct (W5 c' s' Hs' Ho') as (_ & ls' & Hls' & Hin).
      unfold h1. simpl. rewrite list_lookup_alter.
      destruct (decide (sse_emitter s = sse_emitter s')) as [He|?]; [| eauto].
      rewrite <- He, Hls in *. simplify_eq/=. eexists. split; [done |].
      apply remove_first_elem; [by eapply W3 | done]. }
  destruct (Hub.listenerCount (sse_emitter s) h1 =? 0)%nat eqn:Hz.
  - apply Nat.eqb_eq in Hz. rewrite Hcount in Hz. apply nil_length_inv in Hz.
    unfold hub_wf. simpl. split_and!.
    + intros k e [_ Hk]%lookup_delete_Some. rewrite length_alter. by eapply W1.
    + intros k1 k2 e [_ H1]%lookup_delete_Some [_ H2]%lookup_delete_Some.
      by eapply W2.
    + apply H3.
    + apply H4.
    + intros c' s' Hs' Ho'. destruct (H5 c' s' Hs' Ho') as (Hne & Hold & ls' & Hls' & Hin).
      split; [| eauto].
      destruct (W5 c' s' Hold Ho') as (Hk' & _).
      rewrite lookup_delete_ne; [done |]. intros Heq.
      rewrite <- Heq, Hkey in Hk'. simplify_eq.
      unfold h1 in Hls'. simpl in Hls'.
      rewrite list_lookup_alter, <- Hk', decide_True, Hls in Hls' by done.
      simplify_eq/=. rewrite Hz in Hin. by apply not_elem_of_nil in Hin.
  - unfold hub_wf. split_and!.
    + intros k e Hk. unfold h1. simpl. rewrite length_alter. by eapply W1.
    + apply W2.
    + apply H3.
    + apply H4.
    + intros c' s' Hs' Ho'. destruct (H5 c' s' Hs' Ho') as (Hne & Hold & Hl).
      split; [| done]. by apply (W5 c' s').
Qed.

End HubInvariant.

Section Delivery.

Implicit Types (h : Hub) (c e : nat) (k : string) (p : Payload).

(** In a well-formed hub the listeners of the emitter of [k] are the open
    connections subscribed to [k]. *)
Lemma listeners_of_key h k e c s :
  hub_wf h -> progressEmitters h !! k = Some e -> conns h !! c = Some s ->
  c ∈ default [] (emitters h !! e) ↔ sse_open s = true ∧ sse_key s = k.
Proof.
  intros (W1 & W2 & W3 & W4 & W5) Hk Hs. split.
  - intros Hin. destruct (emitters h !! e) as [ls|] eqn:He; simpl in Hin;
      [| by apply not_elem_of_nil in Hin].
    destruct (W4 e ls c He Hin) as (s' & Hs' & Ho & Hem). simplify_eq.
    split; [done |]. destruct (W5 c _ Hs Ho) as [Hkey _]. by eapply W2.
  - intros [Ho <-]. destruct (W5 c s Hs Ho) as (Hkey & ls & Hls & Hin).
    simplify_eq. by rewrite Hls.
Qed.

Lemma sendProgress_conn h k p c s :
  hub_wf h -> conns h !! c = Some s ->
  conns (Hub.sendProgress k p h) !! c
  = Some (if sse_open s && bool_decide (sse_key s = k)
          then mkSse (sse_key s) (sse_emitter s) (sse_out s ++ [Data p]) (sse_open s)
          else s).
Proof.
  intros Hwf Hs. unfold Hub.sendProgress.
  destruct (progressEmitters h !! k) as [e|] eqn:Hk.
  - rewrite emit_conn, Hs by by apply hub_wf_listeners. simpl. f_equal.
    pose proof (listeners_of_key h k e c s Hwf Hk Hs) as Hiff.
    destruct (decide (c ∈ default [] (emitters h !! e))) as [Hin|Hin].
    + apply Hiff in Hin as [-> ->]. by rewrite bool_decide_eq_true_2.
    + destruct (sse_open s) eqn:Ho; simpl; [| done].
      case_bool_decide; [| done]. destruct Hin. by apply Hiff.
  - rewrite Hs. f_equal. destruct (sse_open s) eqn:Ho; simpl; [| done].
    case_bool_decide as Hkey; [| done].
    destruct Hwf as (_ & _ & _ & _ & W5).
    destruct (W5 c s Hs Ho) as [Hreg _]. congruence.
Qed.

End Delivery.

(** ** Children and the temporary file *)

Section Resources.

Lemma is_running_kill sig pid pid' ps :
  is_running pid (kill sig pid' ps) = is_running pid ps.
Proof.
  unfold is_running, kill. rewrite list_lookup_alter.
  case_decide; subst; destruct (ps !! pid) as [p|]; simpl; try done.
  by destruct (pstate p) eqn:E; simpl; rewrite ?E.
Qed.

Lemma is_running_stopped st pid ps :
  st ≠ Running -> is_running pid (set_pstate st pid ps) = false.
Proof.
  intros Hst. unfold is_running, set_pstate.
  rewrite list_lookup_alter, decide_True by done.
  destruct (ps !! pid); simpl; [by destruct st | done].
Qed.

Lemma is_running_pstate pid ps :
  is_running pid ps = false -> pstate <$> ps !! pid ≠ Some Running.
Proof.
  unfold is_running. destruct (ps !! pid) as [p|]; simpl; [| done].
  destruct (pstate p); congruence.
Qed.

Lemma cleanupTemp_absent t s : existsSync t s = false -> cleanupTemp t s = s.
Proof. unfold cleanupTemp. by intros ->. Qed.

Lemma cleanupTemp_gone t s : existsSync t (cleanupTemp t s) = false.
Proof.
  unfold cleanupTemp, existsSync, unlinkSync.
  destruct (files s !! t) eqn:E; simpl; [| by rewrite E].
  by rewrite lookup_delete_eq.
Qed.

Lemma cleanupTemp_log t s :
  unlinked (cleanupTemp t s)
  = if existsSync t s then unlinked s ++ [t] else unlinked s.
Proof.
  unfold cleanupTemp, existsSync, unlinkSync.
  by destruct (files s !! t).
Qed.

Lemma cleanupTemp_idempotent t s :
  cleanupTemp t (cleanupTemp t s) = cleanupTemp t s.
Proof. apply cleanupTemp_absent, cleanupTemp_gone. Qed.

(** The guard of [cleanupTemp] keeps [unlinkSync] from throwing. *)
Lemma cleanupTemp_no_throw t s :
  existsSync t s = true -> is_Some (unlinkSync t s).
Proof.
  unfold existsSync, unlinkSync. destruct (files s !! t); [eauto | done].
Qed.

Lemma statSync_exists t s n : statSync t s = Some n -> existsSync t s = true.
Proof. unfold statSync, existsSync. by intros ->. Qed.

Lemma statSync_absent t s : statSync t s = None -> existsSync t s = false.
Proof. unfold statSync, existsSync. by intros ->. Qed.

End Resources.

(** ** One step of the event loop, case by case *)

Ltac world_simpl :=
  cbn [env id format key procs fs hub res closed phase
       with_procs with_fs with_hub with_res with_closed with_phase
       statusCode headers headersSent body finished
       setHeader json end_ sent res0
       fst snd negb andb orb] in *.

Ltac unfold_handlers :=
  unfold onReqClose, onMetadata, onFfmpeg, onDlProc, onReadStream,
    afterMeta, afterDownload, mp3Branch, mp4Branch, catchBlock, spawn in *.

(** Case analysis on [step w ev]: first the event, then whatever the taken
    branch inspects. *)
Ltac step_cases ev :=
  unfold step in *; destruct ev; world_simpl;
  repeat (case_match; world_simpl);
  unfold_handlers; world_simpl;
  repeat (case_match; world_simpl).

(** After [step_cases]: put the phase of [w] into the hypotheses [H] about
    [w] and into the goal. *)
Ltac use_phase w :=
  world_simpl;
  repeat match goal with
         | E : phase w = _ |- _ =>
             repeat match goal with
                    | H : context [phase w] |- _ =>
                        lazymatch H with E => fail | _ => rewrite E in H end
                    end;
             try rewrite E; clear E
         end;
  world_simpl.

Ltac split_cases :=
  repeat match goal with
         | b : bool |- _ => destruct b
         | r : ReadState |- _ => destruct r
         | f : FfState |- _ => destruct f
         end;
  world_simpl.

Ltac fs_facts :=
  try match goal with
      | R : is_running ?p ?ps = false, E : pstate <$> ?ps !! ?p = Some Running |- _ =>
          by destruct (is_running_pstate p ps R)
      end;
  repeat match goal with
         | E : statSync _ _ = None |- _ => apply statSync_absent in E
         | E : existsSync ?t ?s = false |- context [cleanupTemp ?t ?s] =>
             rewrite (cleanupTemp_absent t s E)
         end;
  rewrite ?cleanupTemp_idempotent, ?is_running_kill, ?cleanupTemp_gone,
    ?cleanupTemp_log, ?is_running_stopped by done;
  repeat match goal with
         | E : unlinked _ = _ |- _ => rewrite E
         | E : statSync _ _ = Some _ |- _ => rewrite (statSync_exists _ _ _ E)
         | E : existsSync _ _ = _ |- _ => rewrite E
         end.

Section StepFrames.

Implicit Types (w : World) (ev : Event).

(** Only a subscriber going away removes a key of the registry. *)
Lemma step_keeps_keys w ev k :
  sseClose ev = false ->
  is_Some (progressEmitters (hub w) !! k) ->
  is_Some (progressEmitters (hub (step w ev)) !! k).
Proof.
  intros Hev Hk. step_cases ev; try discriminate;
    rewrite ?keys_sendProgress;
    auto using keys_subscribe, keys_getEmitter.
Qed.

Lemma run_cons w ev evs : run w (ev :: evs) = run (step w ev) evs.
Proof. reflexivity. Qed.

(** A property kept by every step holds along every trace. *)
Lemma run_invariant (P : World -> Prop) w evs :
  (forall w ev, P w -> P (step w ev)) -> P w -> P (run w evs).
Proof.
  intros Hstep. revert w.
  induction evs as [|ev evs IH]; intros w Hw; [exact Hw |].
  simpl. apply IH, Hstep, Hw.
Qed.

Lemma step_env w ev : env (step w ev) = env w.
Proof. step_cases ev; reflexivity. Qed.

Lemma step_format w ev : format (step w ev) = format w.
Proof. step_cases ev; reflexivity. Qed.

Lemma step_artifact_inv w ev : artifact_inv w -> artifact_inv (step w ev).
Proof.
  intros H. step_cases ev; unfold artifact_inv in *; use_phase w;
    try done; split_cases; try done; destruct_and?; fs_facts;
    try (case_match; simpl); auto.
Qed.

Lemma existsSync_written t size s :
  existsSync t (mkFS (<[t := size]> (files s)) (unlinked s)) = true.
Proof. unfold existsSync. simpl. by rewrite lookup_insert_eq. Qed.

Lemma step_created t w ev :
  artifact_inv w -> created t w -> created t (step w ev).
Proof.
  intros H [Hp Hc]. unfold created.
  step_cases ev; unfold artifact_inv, tempFilePathOf in *; use_phase w;
    try done; split; try done; simplify_eq;
    split_cases; try done; destruct_and?;
    try (left; apply existsSync_written);
    destruct Hc as [Hc|Hc]; try congruence;
    fs_facts; try congruence; auto.
Qed.

(** Once a terminal path was taken nothing touches the directory any
    more, whatever happens next. *)
Lemma step_after_terminal w ev path :
  artifact_inv w -> terminalPath w = Some path -> fs (step w ev) = fs w.
Proof.
  intros H Hp.
  step_cases ev; unfold artifact_inv, terminalPath in *; use_phase w;
    try done; split_cases; try done; destruct_and?; fs_facts; auto.
Qed.

Lemma step_length_inv w ev : length_inv w -> length_inv (step w ev).
Proof.
  intros H. step_cases ev; unfold length_inv in *; use_phase w;
    try done; split_cases; try done; destruct_and?;
    rewrite ?lookup_insert_ne by done; rewrite ?lookup_insert_eq;
    try (split; [| done]); done.
Qed.

Lemma step_streaming_inv w ev : streaming_inv w -> streaming_inv (step w ev).
Proof.
  intros H. pose proof (step_env w ev) as He. revert He.
  step_cases ev; unfold streaming_inv in *; use_phase w; try done;
    intros He; try rewrite He; try (intros Hf; specialize (H Hf));
    destruct_and?; try rewrite H in *; world_simpl; try done;
    try congruence.
Qed.

Lemma step_path_inv w ev : path_inv w -> path_inv (step w ev).
Proof.
  intros H. pose proof (step_env w ev) as He. pose proof (step_format w ev) as Hf.
  revert He Hf.
  step_cases ev; unfold path_inv in *; use_phase w; try done;
    intros He Hf; rewrite ?He, ?Hf; try done;
    repeat match goal with
           | E : (_ <? _) = false |- _ => apply Z.ltb_ge in E
           end;
    try (split; [done | lia]).
Qed.

Lemma step_id w ev : id (step w ev) = id w.
Proof. step_cases ev; reflexivity. Qed.




Lemma is_running_spawn c (ps : list Proc) :
  is_running (length ps) (ps ++ [mkProc c Running []]) = true.
Proof.
  unfold is_running. by rewrite lookup_app_r, Nat.sub_diag by lia.
Qed.

Lemma is_running_true pid ps :
  is_running pid ps = true -> pstate <$> ps !! pid = Some Running.
Proof.
  unfold is_running. destruct (ps !! pid) as [p|]; simpl; [| done].
  by destruct (pstate p).
Qed.

Lemma step_download_inv w ev : download_inv w -> download_inv (step w ev).
Proof.
  intros H.
  step_cases ev; unfold download_inv in *; use_phase w; try done;
    split_cases; world_simpl; destruct_and?; simplify_eq; try done;
    fs_facts;
    try match goal with
        | E : is_running _ _ = true |- _ => pose proof (is_running_true _ _ E)
        end;
    repeat match goal with
           | E : res w = res0 |- _ => rewrite E in *; clear E
           end;
    world_simpl; try congruence;
    rewrite ?is_running_spawn;
    try (split_and!; by eauto).
Qed.

(** After a ['close'] that no callback saw, none will: the event is not
    emitted again. *)
Lemma step_unnoticed_close w ev : unnoticed_close w -> unnoticed_close (step w ev).
Proof.
  intros [Hc H].
  step_cases ev; unfold unnoticed_close in *; use_phase w; try done;
    world_simpl; try (split; [done |]); try done;
    try congruence; split_cases; try done.
Qed.

Lemma step_hub_wf w ev : hub_wf (hub w) -> hub_wf (hub (step w ev)).
Proof.
  intros H.
  step_cases ev;
    eauto using hub_wf_subscribe, hub_wf_unsubscribe, hub_wf_keepAlive,
      hub_wf_sendProgress, hub_wf_getEmitter.
Qed.

Lemma set_pstate_lookups st pid ps :
  Forall (λ p, isMetaLookup p = true) ps ->
  Forall (λ p, isMetaLookup p = true) (set_pstate st pid ps).
Proof.
  intros H. unfold set_pstate. apply Forall_alter; [done |].
  intros p _ Hp. exact Hp.
Qed.

Lemma rejected_format f :
  acceptedFormat f = false -> f ≠ "mp3" ∧ f ≠ "mp4".
Proof.
  unfold acceptedFormat. intros H. apply orb_false_elim in H as [H1 H2].
  split; intros ->; by rewrite bool_decide_eq_true_2 in *.
Qed.

(** With a format that is not accepted the handler never gets past the
    metadata lookup. *)
Lemma step_rejected_inv w ev :
  acceptedFormat (format w) = false ->
  rejected_inv w -> rejected_inv (step w ev).
Proof.
  intros Hf (Hps & Hlen & H). apply rejected_format in Hf as [Hmp3 Hmp4].
  unfold rejected_inv.
  destruct (phase w) eqn:Hph; try done;
    unfold step; destruct ev; world_simpl; rewrite ?Hph; world_simpl;
    try (split_and!; by rewrite ?Hph);
    unfold_handlers; world_simpl;
    repeat (case_match; world_simpl); try done;
    unfold set_pstate; rewrite ?length_alter, ?Hph;
    (split; [by try apply set_pstate_lookups | split; [done |]]);
    try done;
    try match goal with
        | S : headersSent (res w) = true |- _ => by rewrite H in S
        end;
    try rewrite H; world_simpl; destruct_and?;
    try (split; [done |]); eauto 6.
Qed.

(** A request with an accepted format is never answered with
    "Invalid format". *)
Lemma step_accepted w ev :
  acceptedFormat (format w) = true ->
  body (res w) ≠ Some invalidFormatReply ->
  body (res (step w ev)) ≠ Some invalidFormatReply.
Proof.
  intros Hf H.
  step_cases ev; try done;
    unfold acceptedFormat in Hf;
    rewrite ?bool_decide_eq_false_2 in Hf by done; done.
Qed.

(** Once the handler has answered and registered no callback, only the
    registry and the connection flag can change. *)
Lemma step_replied w ev :
  phase w = Replied ->
  phase (step w ev) = Replied ∧ res (step w ev) = res w
  ∧ procs (step w ev) = procs w ∧ fs (step w ev) = fs w.
Proof. intros H. step_cases ev; use_phase w; done. Qed.

Lemma run_replied w evs :
  phase w = Replied ->
  phase (run w evs) = Replied ∧ res (run w evs) = res w
  ∧ procs (run w evs) = procs w ∧ fs (run w evs) = fs w.
Proof.
  intros H.
  apply (run_invariant (λ w', phase w' = Replied ∧ res w' = res w
                              ∧ procs w' = procs w ∧ fs w' = fs w)); [| done].
  intros w' ev (Hp & Hr & Hps & Hfs).
  destruct (step_replied w' ev Hp) as (? & ? & ? & ?).
  split_and!; congruence.
Qed.

Lemma never_killed_term pid ps :
  never_killed ps -> never_killed (kill SIGTERM pid ps).
Proof.
  intros H. unfold kill. apply Forall_alter; [done |].
  intros p _ Hp. destruct (pstate p); simpl; [| done ..].
  intros [Hin | Hin]%elem_of_app; [done |].
  by apply list_elem_of_singleton in Hin.
Qed.

Lemma never_killed_pstate st pid ps :
  never_killed ps -> never_killed (set_pstate st pid ps).
Proof.
  intros H. unfold set_pstate. apply Forall_alter; [done |].
  intros p _ Hp. exact Hp.
Qed.

Lemma never_killed_spawn c ps :
  never_killed ps -> never_killed (ps ++ [mkProc c Running []]).
Proof.
  intros H. apply Forall_app. split; [done |].
  apply Forall_singleton. simpl. apply not_elem_of_nil.
Qed.

(** Once the ['close'] event of the request is past, no callback sends
    [SIGKILL] any more. *)
Lemma step_closed_never_killed w ev :
  closed w = true ∧ never_killed (procs w) ->
  closed (step w ev) = true ∧ never_killed (procs (step w ev)).
Proof.
  intros [Hc Hk].
  step_cases ev; try congruence; split; try done;
    auto using never_killed_term, never_killed_pstate, never_killed_spawn.
Qed.

End StepFrames.

(** ** The start of a request *)

Section Handle.

Lemma run_env w evs : env (run w evs) = env w.
Proof.
  apply (run_invariant (λ w', env w' = env w)); [| done].
  intros w' ev H. by rewrite step_env.
Qed.

Lemma handle_env e rq ps f h : env (handle e rq ps f h) = e.
Proof. unfold handle, spawn. by destruct (ytDlpExecWrapper e). Qed.

Lemma handle_format e rq ps f h :
  format (handle e rq ps f h) = formatOf (query_format rq).
Proof. unfold handle, spawn. by destruct (ytDlpExecWrapper e). Qed.

Lemma run_format w evs : format (run w evs) = format w.
Proof.
  apply (run_invariant (λ w', format w' = format w)); [| done].
  intros w' ev H. by rewrite step_format.
Qed.

Lemma handle_id e rq ps f h : id (handle e rq ps f h) = params_id rq.
Proof. unfold handle, spawn. by destruct (ytDlpExecWrapper e). Qed.

Lemma run_id w evs : id (run w evs) = id w.
Proof.
  apply (run_invariant (λ w', id w' = id w)); [| done].
  intros w' ev H. by rewrite step_id.
Qed.

Lemma handle_streaming_inv e rq ps f h : streaming_inv (handle e rq ps f h).
Proof. unfold handle, streaming_inv, spawn. by destruct (ytDlpExecWrapper e). Qed.



Lemma handle_hub e rq ps f h : hub (handle e rq ps f h) = h.
Proof. unfold handle, spawn. by destruct (ytDlpExecWrapper e). Qed.

End Handle.

(** ** The temporary artifact of the mp4 path *)

Section Artifact.

Lemma handle_artifact_inv e rq ps files0 h :
  artifact_inv (handle e rq ps (mkFS files0 []) h).
Proof. unfold handle, artifact_inv, spawn. by destruct (ytDlpExecWrapper e). Qed.

Lemma deletions_none t w : unlinked (fs w) = [] -> deletions t w = 0%nat.
Proof. unfold deletions. by intros ->. Qed.

Lemma deletions_one t w : unlinked (fs w) = [t] -> deletions t w = 1%nat.
Proof.
  unfold deletions. intros ->.
  rewrite filter_cons, decide_True by done. reflexivity.
Qed.

(** The file of an mp4 download that was created, along every trace:
    [fs.unlinkSync] removes it at most once; it is on disk and undeleted
    until a terminal path is taken, and gone, after exactly one deletion,
    once one was taken; after that no event changes the directory. *)
Lemma artifact_on_terminal_paths
    (e : Env) (rq : Request) (ps : list Proc) (files0 : gmap string N)
    (h : Hub) (evs1 evs2 : list Event) (t : string) :
  let w1 := run (handle e rq ps (mkFS files0 []) h) evs1 in
  let w2 := run w1 evs2 in
  tempFilePathOf w1 = Some t ->
  existsSync t (fs w1) = true ->
  tempFilePathOf w2 = Some t
  ∧ (deletions t w2 ≤ 1)%nat
  ∧ (terminalPath w2 = None ->
     existsSync t (fs w2) = true ∧ deletions t w2 = 0%nat)
  ∧ (∀ path, terminalPath w2 = Some path ->
     existsSync t (fs w2) = false ∧ deletions t w2 = 1%nat
     ∧ ∀ ev, fs (step w2 ev) = fs w2).
Proof.
  intros w1 w2 Hp He.
  assert (Hinv1 : artifact_inv w1)
    by (apply run_invariant; [apply step_artifact_inv | apply handle_artifact_inv]).
  assert (H2 : artifact_inv w2 ∧ created t w2).
  { apply (run_invariant (λ w, artifact_inv w ∧ created t w)).
    - intros w ev [Hi Hc]. split; [by apply step_artifact_inv | by apply step_created].
    - split; [done |]. split; [done | by left]. }
  destruct H2 as [Hinv [Hpath Hc]].
  split; [done |].
  assert (Hcases :
    (terminalPath w2 = None ∧ existsSync t (fs w2) = true ∧ unlinked (fs w2) = [])
    ∨ (is_Some (terminalPath w2) ∧ existsSync t (fs w2) = false
       ∧ unlinked (fs w2) = [t])).
  { unfold artifact_inv, tempFilePathOf, terminalPath in *.
    destruct (phase w2); try done; simplify_eq; split_cases; destruct_and?;
      destruct Hc as [Hc|Hc]; try congruence;
      try (apply statSync_exists in H0);
      try (left; by repeat split);
      try (right; by repeat split; try done; eexists). }
  split_and!.
  - destruct Hcases as [(_ & _ & Hlog) | (_ & _ & Hlog)].
    + rewrite (deletions_none _ _ Hlog). lia.
    + rewrite (deletions_one _ _ Hlog). lia.
  - intros Hn. destruct Hcases as [(_ & Hex & Hlog) | (Ht & _ & _)].
    + by rewrite (deletions_none _ _ Hlog).
    + rewrite Hn in Ht. by destruct Ht.
  - intros path Hsome. destruct Hcases as [(Ht & _ & _) | (_ & Hex & Hlog)].
    + congruence.
    + rewrite (deletions_one _ _ Hlog). split_and!; try done.
      intros ev. by eapply step_after_terminal.
Qed.

(** The ['close'] callback of line 357: a disconnect while the file is
    streamed destroys the read stream and deletes the file. *)
Lemma close_while_streaming w t dl size b :
  artifact_inv w -> phase w = Mp4Stream t dl size RsOpen -> closed w = false ->
  let w1 := step w (ReqClose b) in
  terminalPath w1 = Some ClientDisconnect
  ∧ existsSync t (fs w1) = false ∧ deletions t w1 = 1%nat.
Proof.
  intros Hinv Hp Hc w1. unfold artifact_inv in Hinv. rewrite Hp in Hinv.
  destruct Hinv as (_ & Hstat & Hlog).
  subst w1. unfold step. rewrite Hc. unfold onReqClose, terminalPath, deletions.
  rewrite Hp. world_simpl.
  rewrite cleanupTemp_gone, cleanupTemp_log, (statSync_exists _ _ _ Hstat), Hlog.
  split_and!; try done. simpl. by rewrite filter_cons, decide_True.
Qed.

(** Once the disconnect was noticed during the download the handler stays
    where it is: the promise of line 293 can only be rejected. *)
Lemma step_aborted w ev t f dl s :
  phase w = Mp4Download t f dl true s ->
  ∃ s', phase (step w ev) = Mp4Download t f dl true s' ∧ (s = true -> s' = true).
Proof.
  intros H.
  step_cases ev; use_phase w; simplify_eq; eauto.
Qed.

Lemma run_aborted w evs t f dl s :
  phase w = Mp4Download t f dl true s ->
  ∃ s', phase (run w evs) = Mp4Download t f dl true s' ∧ (s = true -> s' = true).
Proof.
  revert w s. induction evs as [|ev evs IH]; intros w s H; [by eauto |].
  rewrite run_cons.
  destruct (step_aborted w ev t f dl s H) as (s1 & H1 & Hs1).
  destruct (IH _ _ H1) as (s2 & H2 & Hs2). eauto.
Qed.

(** The ['close'] callback of line 284: a disconnect during the download
    is remembered, and when the child closes, with whatever exit code, the
    file is deleted. *)
Lemma close_while_downloading w t f dl b evs code :
  artifact_inv w -> download_inv w -> created t w ->
  phase w = Mp4Download t f dl false false -> closed w = false ->
  let w2 := step (run (step w (ReqClose b)) evs) (DlProcClose code) in
  terminalPath w2 = Some ClientDisconnect
  ∧ existsSync t (fs w2) = false ∧ deletions t w2 = 1%nat.
Proof.
  intros Ha Hd Hcr Hp Hc w2.
  set (w1 := step w (ReqClose b)) in *.
  set (w' := run w1 evs) in *.
  assert (Hp1 : phase w1 = Mp4Download t f dl true false).
  { unfold w1, step. rewrite Hc. unfold onReqClose. by rewrite Hp. }
  assert (Hinv' : artifact_inv w' ∧ download_inv w' ∧ created t w').
  { apply (run_invariant (λ w, artifact_inv w ∧ download_inv w ∧ created t w)).
    - intros w0 ev (? & ? & ?).
      split_and!; [by apply step_artifact_inv | by apply step_download_inv
                  | by apply step_created].
    - split_and!; [by apply step_artifact_inv | by apply step_download_inv
                  | by apply step_created]. }
  destruct Hinv' as (Ha' & Hd' & Hcr').
  destruct (run_aborted w1 evs t f dl false Hp1) as (s' & Hp' & _). fold w' in Hp'.
  assert (Hp2 : phase w2 = Mp4Download t f dl true true).
  { destruct s'.
    - destruct (step_aborted w' (DlProcClose code) t f dl true Hp') as (s2 & H2 & Hs2).
      fold w2 in H2. by rewrite H2, Hs2.
    - unfold download_inv in Hd'. rewrite Hp' in Hd'.
      destruct Hd' as (Hrun & _). apply is_running_true in Hrun.
      unfold w2, step. rewrite Hp'. unfold onDlProc. rewrite Hrun.
      unfold catchBlock. by world_simpl. }
  assert (Ha2 : artifact_inv w2) by by apply step_artifact_inv.
  assert (Hcr2 : created t w2) by by apply step_created.
  unfold artifact_inv in Ha2. rewrite Hp2 in Ha2.
  destruct Ha2 as (_ & Hgone & _). destruct Hcr2 as [_ [Hex|Hlog]]; [congruence |].
  unfold terminalPath. rewrite Hp2. split_and!; [done | done |].
  by apply deletions_one.
Qed.

(** While the file is streamed to a request that is closed, nothing but
    the end or a failure of the read stream changes the directory. *)
Lemma step_stalled w ev t dl size :
  phase w = Mp4Stream t dl size RsOpen -> closed w = true ->
  streamOver ev = false ->
  phase (step w ev) = Mp4Stream t dl size RsOpen
  ∧ closed (step w ev) = true ∧ fs (step w ev) = fs w.
Proof.
  intros Hp Hc Hev.
  step_cases ev; use_phase w; simplify_eq; try done.
Qed.

Lemma run_stalled w evs t dl size :
  phase w = Mp4Stream t dl size RsOpen -> closed w = true ->
  Forall (λ ev, streamOver ev = false) evs ->
  fs (run w evs) = fs w.
Proof.
  revert w. induction evs as [|ev evs IH]; intros w Hp Hc Hevs; [done |].
  apply Forall_cons in Hevs as [Hev Hevs]. rewrite run_cons.
  destruct (step_stalled w ev t dl size Hp Hc Hev) as (Hp1 & Hc1 & Hfs).
  by rewrite (IH _ Hp1 Hc1 Hevs).
Qed.

Lemma terminalPath_unnoticed w :
  unnoticed_close w -> terminalPath w ≠ Some ClientDisconnect.
Proof.
  intros [_ H]. unfold terminalPath.
  destruct (phase w) as [| |? ? ? a []|? ? ? []|]; try done; by subst a.
Qed.

(** C1 at a failing input: the client leaves while the metadata lookup of
    an mp4 download runs.  No ['close'] callback is registered yet (lines
    290 and 357 come after the [await] of line 189) and the event is not
    emitted again: the download goes on, the file is written and opened
    for a response that is gone, and the deletion of the disconnect path
    never happens; the file stays until the read stream ends or fails.
    This holds for every request.  On the sibling paths, where the
    disconnect comes once a callback is registered, the file is deleted,
    exactly once: at once while it is streamed, and when the killed child
    closes while it is downloaded.  Along every trace a file that was
    created is deleted at most once: it is on disk until a terminal path
    is taken and gone, after one deletion, once one was; and [cleanupTemp]
    is idempotent and never throws. *)
Theorem disconnect_during_lookup_leaves_artifact :
  (let w := run (handle env0 rq_mp4 [] fs0 Hub.empty)
              [ReqClose true; MetaProcClose 0 (Some meta0);
               DlWrite 1000; DlProcClose 0] in
   closed w = true
   ∧ phase w = Mp4Stream temp0 1 1000 RsOpen
   ∧ existsSync temp0 (fs w) = true
   ∧ deletions temp0 w = 0%nat
   ∧ terminalPath w = None
   ∧ (∀ b, step w (ReqClose b) = w))
  ∧ (let w := run (handle env0 rq_mp4 [] fs0 Hub.empty)
                [MetaProcClose 0 (Some meta0); DlWrite 1000; DlProcClose 0;
                 ReqClose true] in
     terminalPath w = Some ClientDisconnect
     ∧ existsSync temp0 (fs w) = false ∧ deletions temp0 w = 1%nat)
  ∧ (∀ (e : Env) (rq : Request) (files0 : gmap string N) (h : Hub) (b : bool)
       (evs : list Event),
       let w := run (handle e rq [] (mkFS files0 []) h) (ReqClose b :: evs) in
       closed w = true
       ∧ terminalPath w ≠ Some ClientDisconnect
       ∧ (∀ b', step w (ReqClose b') = w)
       ∧ (∀ t dl size evs',
            phase w = Mp4Stream t dl size RsOpen ->
            Forall (λ ev, streamOver ev = false) evs' ->
            existsSync t (fs (run w evs')) = true
            ∧ deletions t (run w evs') = 0%nat))
  ∧ (∀ (e : Env) (rq : Request) (files0 : gmap string N) (h : Hub)
       (evs : list Event) (t : string) (b : bool),
       let w := run (handle e rq [] (mkFS files0 []) h) evs in
       closed w = false -> existsSync t (fs w) = true ->
       (∀ dl size, phase w = Mp4Stream t dl size RsOpen ->
          let w1 := step w (ReqClose b) in
          terminalPath w1 = Some ClientDisconnect
          ∧ existsSync t (fs w1) = false ∧ deletions t w1 = 1%nat)
       ∧ (∀ f dl evs' code, phase w = Mp4Download t f dl false false ->
          let w2 := step (run (step w (ReqClose b)) evs') (DlProcClose code) in
          terminalPath w2 = Some ClientDisconnect
          ∧ existsSync t (fs w2) = false ∧ deletions t w2 = 1%nat))
  ∧ (∀ (e : Env) (rq : Request) (files0 : gmap string N) (h : Hub)
       (evs1 evs2 : list Event) (t : string),
       let w1 := run (handle e rq [] (mkFS files0 []) h) evs1 in
       let w2 := run w1 evs2 in
       tempFilePathOf w1 = Some t -> existsSync t (fs w1) = true ->
       (deletions t w2 ≤ 1)%nat
       ∧ (terminalPath w2 = None ->
          existsSync t (fs w2) = true ∧ deletions t w2 = 0%nat)
       ∧ (∀ path, terminalPath w2 = Some path ->
          existsSync t (fs w2) = false ∧ deletions t w2 = 1%nat
          ∧ ∀ ev, fs (step w2 ev) = fs w2))
  ∧ (∀ t s, cleanupTemp t (cleanupTemp t s) = cleanupTemp t s)
  ∧ (∀ t s, existsSync t s = true -> is_Some (unlinkSync t s)).
Proof.
  split_and!.
  - split_and!; [vm_compute; reflexivity .. |].
    intros b. vm_compute. reflexivity.
  - split_and!; vm_compute; reflexivity.
  - intros e rq files0 h b evs w.
    assert (Hinv : unnoticed_close w ∧ artifact_inv w).
    { subst w. rewrite run_cons.
      apply (run_invariant (λ w, unnoticed_close w ∧ artifact_inv w)).
      - intros w ev [? ?].
        split; [by apply step_unnoticed_close | by apply step_artifact_inv].
      - split; [| apply step_artifact_inv, handle_artifact_inv].
        unfold handle, spawn, unnoticed_close.
        by destruct (ytDlpExecWrapper e). }
    destruct Hinv as [Hun Hart]. pose proof Hun as [Hc _].
    split_and!; [done | by apply terminalPath_unnoticed | |].
    + intros b'. unfold step. by rewrite Hc.
    + intros t dl size evs' Hp Hevs.
      unfold artifact_inv in Hart. rewrite Hp in Hart.
      destruct Hart as (_ & Hstat & Hlog).
      unfold deletions. rewrite (run_stalled w evs' t dl size Hp Hc Hevs), Hlog.
      split; [by eapply statSync_exists | done].
  - intros e rq files0 h evs t b w Hc Hex.
    assert (Hart : artifact_inv w)
      by (apply run_invariant; [apply step_artifact_inv | apply handle_artifact_inv]).
    assert (Hd : download_inv w).
    { apply run_invariant; [apply step_download_inv |].
      unfold handle, download_inv, spawn. by destruct (ytDlpExecWrapper e). }
    split.
    + intros dl size Hp. exact (close_while_streaming w t dl size b Hart Hp Hc).
    + intros f dl evs' code Hp.
      apply (close_while_downloading w t f dl b evs' code); try done.
      split; [| by left]. unfold tempFilePathOf. by rewrite Hp.
  - intros e rq files0 h evs1 evs2 t w1 w2 Ht Hex.
    by destruct (artifact_on_terminal_paths e rq [] files0 h evs1 evs2 t Ht Hex)
      as (_ & ? & ? & ?).
  - intros t s. apply cleanupTemp_idempotent.
  - intros t s. apply cleanupTemp_no_throw.
Qed.

End Artifact.

(** ** Validation: the format and the duration ceiling *)

Section Validation.

Lemma handle_rejected_inv e rq f h : rejected_inv (handle e rq [] f h).
Proof.
  unfold handle, rejected_inv, spawn.
  destruct (ytDlpExecWrapper e); simpl; split_and!; auto.
Qed.

(** The first turn after the metadata arrived, for a format that is not
    accepted and a video that is short enough. *)
Lemma resolved_invalid e rq f h meta :
  acceptedFormat (formatOf (query_format rq)) = false ->
  durationOf meta <= 3600 ->
  let w := step (handle e rq [] f h) (resolved e meta) in
  phase w = Replied
  ∧ res w = json 400 invalidFormatReply res0.
Proof.
  intros Hf Hd. apply rejected_format in Hf as [Hmp3 Hmp4].
  assert (Hlt : (3600 <? durationOf meta) = false) by lia.
  unfold handle, resolved, spawn.
  destruct (ytDlpExecWrapper e); simpl;
    unfold afterMeta; world_simpl; rewrite Hlt;
    rewrite !decide_False by done; done.
Qed.

Lemma resolved_too_long e rq f h meta :
  3600 < durationOf meta ->
  let w := step (handle e rq [] f h) (resolved e meta) in
  phase w = Replied
  ∧ res w = json 400 tooLongReply res0
  ∧ procs w = if ytDlpExecWrapper e then []
              else [mkProc (YtJson (urlOf (params_id rq))) Closed []].
Proof.
  intros Hd.
  assert (Hlt : (3600 <? durationOf meta) = true) by lia.
  unfold handle, resolved, spawn.
  destruct (ytDlpExecWrapper e); simpl;
    unfold afterMeta; world_simpl; rewrite Hlt; done.
Qed.

(** C3, as the code has it.  A request whose format, after defaulting and
    lower-casing, is neither [mp3] nor [mp4] never starts a fetch or a
    download child: at any time the only child there can be is the
    metadata lookup [yt-dlp -j] of line 81, which is started before the
    format is looked at.  Every answer it gets is an error reply, a 400 or
    the 500 of a failed lookup; and once the lookup succeeds for a video
    of at most 3600 seconds the answer is the 400 "Invalid format". *)
Theorem invalid_format_rejected
    (e : Env) (rq : Request) (files0 : gmap string N) (h : Hub)
    (evs : list Event) :
  acceptedFormat (formatOf (query_format rq)) = false ->
  let w := run (handle e rq [] (mkFS files0 []) h) evs in
  Forall (λ p, isMetaLookup p = true) (procs w)
  ∧ (length (procs w) ≤ 1)%nat
  ∧ (finished (res w) = true ->
     (statusCode (res w) = 400
      ∧ (body (res w) = Some tooLongReply ∨ body (res w) = Some invalidFormatReply))
     ∨ (statusCode (res w) = 500
        ∧ ∃ err, body (res w) = Some (mkJson "Download failed" (OfErr err))))
  ∧ (∀ meta evs', durationOf meta <= 3600 ->
     let w' := run (handle e rq [] (mkFS files0 []) h) (resolved e meta :: evs') in
     statusCode (res w') = 400 ∧ body (res w') = Some invalidFormatReply).
Proof.
  intros Hf w.
  assert (Hinv : acceptedFormat (format w) = false ∧ rejected_inv w).
  { apply (run_invariant (λ w, acceptedFormat (format w) = false ∧ rejected_inv w)).
    - intros w' ev [Hf' Hi]. rewrite step_format.
      split; [done | by apply step_rejected_inv].
    - rewrite handle_format. split; [done | apply handle_rejected_inv]. }
  destruct Hinv as (_ & Hps & Hlen & Hph).
  split_and!; [done | done | |].
  - intros Hfin. destruct (phase w); try done.
    + rewrite Hph in Hfin. discriminate.
    + by destruct Hph.
  - intros meta evs' Hd w'.
    destruct (resolved_invalid e rq (mkFS files0 []) h meta Hf Hd) as [Hp Hr].
    subst w'. rewrite run_cons.
    destruct (run_replied _ evs' Hp) as (_ & Hres & _).
    rewrite Hres, Hr. done.
Qed.

(** C4, as the code has it.  When the metadata arrives with a duration
    whose integer part exceeds 3600, the answer is the 400 "Video too
    long" and stays so; no child other than the metadata lookup that
    delivered the duration was started.  A duration whose integer part is
    at most 3600 is not rejected by this check. *)
Theorem too_long_rejected
    (e : Env) (rq : Request) (files0 : gmap string N) (h : Hub)
    (meta : Meta) (evs : list Event) :
  let w0 := handle e rq [] (mkFS files0 []) h in
  let w := run w0 (resolved e meta :: evs) in
  (3600 < durationOf meta ->
   statusCode (res w) = 400 ∧ body (res w) = Some tooLongReply
   ∧ procs w = if ytDlpExecWrapper e then []
               else [mkProc (YtJson (urlOf (params_id rq))) Closed []])
  ∧ (durationOf meta <= 3600 ->
     body (res (step w0 (resolved e meta))) ≠ Some tooLongReply).
Proof.
  intros w0 w. split.
  - intros Hd.
    destruct (resolved_too_long e rq (mkFS files0 []) h meta Hd) as (Hp & Hr & Hps).
    subst w w0. rewrite run_cons.
    destruct (run_replied _ evs Hp) as (_ & Hres & Hprocs & _).
    rewrite Hres, Hprocs, Hr. done.
  - intros Hd.
    assert (Hlt : (3600 <? durationOf meta) = false) by lia.
    subst w0. unfold handle, resolved, spawn.
    destruct (ytDlpExecWrapper e); simpl;
      unfold afterMeta, mp3Branch, mp4Branch, spawn; world_simpl; rewrite Hlt;
      repeat case_match; world_simpl; done.
Qed.

End Validation.

(** ** The format parameter *)

Section Format.

Lemma lower_char_idempotent c : JS.lower_char (JS.lower_char c) = JS.lower_char c.
Proof. by destruct c as [[] [] [] [] [] [] [] []]. Qed.

Lemma toLowerCase_idempotent s :
  JS.toLowerCase (JS.toLowerCase s) = JS.toLowerCase s.
Proof.
  induction s as [|c s IH]; simpl; [done |].
  by rewrite lower_char_idempotent, IH.
Qed.

Lemma toLowerCase_empty s : JS.toLowerCase s = EmptyString -> s = EmptyString.
Proof. by destruct s. Qed.

Lemma formatOf_lower s : formatOf (Some (JS.toLowerCase s)) = formatOf (Some s).
Proof.
  unfold formatOf, or_else.
  destruct (decide (s = EmptyString)) as [->|Hs]; [done |].
  rewrite decide_False by (intros E; by apply toLowerCase_empty in E).
  apply toLowerCase_idempotent.
Qed.

Lemma handle_by_format e i q1 q2 k ps f h :
  formatOf q1 = formatOf q2 ->
  handle e (mkRequest i q1 k) ps f h = handle e (mkRequest i q2 k) ps f h.
Proof. unfold handle. simpl. by intros ->. Qed.

Lemma run_key w evs : key (run w evs) = key w.
Proof.
  apply (run_invariant (λ w', key w' = key w)); [| done].
  intros w' ev H. rewrite <- H. step_cases ev; reflexivity.
Qed.

Lemma handle_path_inv e rq ps f h : path_inv (handle e rq ps f h).
Proof.
  unfold handle, path_inv, spawn.
  destruct (ytDlpExecWrapper e) eqn:E; simpl; by rewrite E.
Qed.

(** The mp3 path is never left. *)
Lemma step_mp3 w ev yt dur ck fn ff :
  phase w = Mp3 yt dur ck fn ff -> ∃ ff', phase (step w ev) = Mp3 yt dur ck fn ff'.
Proof. intros H. step_cases ev; use_phase w; simplify_eq; eauto. Qed.

Lemma run_mp3 w evs yt dur ck fn ff :
  phase w = Mp3 yt dur ck fn ff -> ∃ ff', phase (run w evs) = Mp3 yt dur ck fn ff'.
Proof.
  revert w ff. induction evs as [|ev evs IH]; intros w ff H; [by eauto |].
  rewrite run_cons. destruct (step_mp3 w ev _ _ _ _ _ H) as (ff1 & H1). eauto.
Qed.

(** The handler resumes on the mp3 path: lines 197-272. *)
Lemma resolved_mp3 w meta proc :
  phase w = AwaitMeta proc -> path_inv w -> streaming_inv w ->
  format w = "mp3" -> durationOf meta <= 3600 ->
  let w1 := step w (resolved (env w) meta) in
  phase w1 = Mp3 (length (procs w)) (durationOf meta) (clientKeyOf w)
               (safeTitleOf meta +:+ ".mp3") FfRunning
  ∧ last (procs w1) = Some (mkProc (YtAudio (urlOf (id w))) Running [])
  ∧ headers (res w1) !! "Content-Type" = Some "audio/mpeg"
  ∧ headers (res w1) !! "Content-Disposition"
    = Some (attachment (safeTitleOf meta +:+ ".mp3")).
Proof.
  intros Hp Hpath Hres Hf Hd w1.
  unfold path_inv in Hpath. unfold streaming_inv in Hres.
  rewrite Hp in Hpath, Hres.
  assert (Hlt : (3600 <? durationOf meta) = false) by lia.
  subst w1. unfold resolved, step.
  destruct (ytDlpExecWrapper (env w)) eqn:E; rewrite Hp.
  - destruct proc; [by destruct Hpath as [_ Hpath]; specialize (Hpath eq_refl) |].
    unfold onMetadata, afterMeta. rewrite Hlt, decide_True by done.
    unfold mp3Branch, spawn, clientKeyOf. world_simpl. rewrite Hres.
    split_and!; [done | by rewrite last_snoc | by destruct (hasFlushHeaders _) ..].
  - destruct proc as [pid|]; [| by destruct Hpath as [Hpath _]; specialize (Hpath eq_refl)].
    unfold onMetadata, afterMeta. change (negb (0 =? 0)) with false.
    world_simpl. rewrite Hlt, decide_True by done.
    unfold mp3Branch, spawn, clientKeyOf, set_pstate. world_simpl.
    rewrite Hres, length_alter.
    split_and!; [done | by rewrite last_snoc | by destruct (hasFlushHeaders _) ..].
Qed.

(** C9.  A request without [format] is handled exactly like one with
    [format=mp3], on every trace of events, and that is the audio
    streaming path: it never gets a temporary file, and when the lookup
    delivers the metadata of a video of at most 3600 seconds the handler
    sets the [audio/mpeg] headers, starts [yt-dlp -f bestaudio] and stays
    on that path.  The format is compared after lower-casing, so that a
    request and its lower-cased variant are handled alike (["MP4"] is
    ["mp4"]); and a request without [format] is never answered "Invalid
    format". *)
Theorem format_defaults_to_mp3
    (e : Env) (i : string) (k : option string) (ps : list Proc) (f : FS)
    (h : Hub) (evs : list Event) :
  run (handle e (mkRequest i None k) ps f h) evs
  = run (handle e (mkRequest i (Some "mp3") k) ps f h) evs
  ∧ (∀ s, run (handle e (mkRequest i (Some s) k) ps f h) evs
          = run (handle e (mkRequest i (Some (JS.toLowerCase s)) k) ps f h) evs)
  ∧ formatOf (Some "MP4") = "mp4"
  ∧ body (res (run (handle e (mkRequest i None k) ps f h) evs))
    ≠ Some invalidFormatReply
  ∧ tempFilePathOf (run (handle e (mkRequest i None k) ps f h) evs) = None
  ∧ strategyOf (run (handle e (mkRequest i None k) ps f h) evs)
    ≠ Some FileThenStream
  ∧ (∀ meta proc evs',
       let w := run (handle e (mkRequest i None k) ps f h) evs in
       let w1 := step w (resolved e meta) in
       phase w = AwaitMeta proc -> durationOf meta <= 3600 ->
       phase w1 = Mp3 (length (procs w)) (durationOf meta)
                    (or_else k (i +:+ "_mp3"))
                    (safeTitleOf meta +:+ ".mp3") FfRunning
       ∧ last (procs w1) = Some (mkProc (YtAudio (urlOf i)) Running [])
       ∧ headers (res w1) !! "Content-Type" = Some "audio/mpeg"
       ∧ strategyOf (run w1 evs') = Some PipeThrough).
Proof.
  set (w := run (handle e (mkRequest i None k) ps f h) evs).
  assert (Hf : format w = "mp3").
  { unfold w. by rewrite run_format, handle_format. }
  assert (Hpath : path_inv w)
    by (apply run_invariant; [apply step_path_inv | apply handle_path_inv]).
  split_and!.
  - unfold w. by rewrite (handle_by_format e i None (Some "mp3")).
  - intros s. f_equal. apply handle_by_format. by rewrite formatOf_lower.
  - reflexivity.
  - apply (run_invariant
             (λ w, acceptedFormat (format w) = true
                   ∧ body (res w) ≠ Some invalidFormatReply)).
    + intros w0 ev [Hf0 Hb]. rewrite step_format.
      split; [done | by apply step_accepted].
    + rewrite handle_format. split; [done |].
      unfold handle, spawn. by destruct (ytDlpExecWrapper e).
  - unfold path_inv, tempFilePathOf in *.
    destruct (phase w); try done; by rewrite Hf in Hpath.
  - unfold path_inv, strategyOf in *.
    destruct (phase w); try done. by rewrite Hf in Hpath.
  - intros meta proc evs' w0 w1 Hp Hd. subst w0.
    assert (Hres : streaming_inv w)
      by (apply run_invariant; [apply step_streaming_inv | apply handle_streaming_inv]).
    assert (He : env w = e) by (unfold w; by rewrite run_env, handle_env).
    assert (Hid : id w = i) by (unfold w; by rewrite run_id, handle_id).
    assert (Hk : clientKeyOf w = or_else k (i +:+ "_mp3")).
    { unfold clientKeyOf, or_else. rewrite Hid, Hf.
      assert (Hkey : key w = k).
      { unfold w. rewrite run_key. unfold handle, spawn.
        by destruct (ytDlpExecWrapper e). }
      by rewrite Hkey. }
    destruct (resolved_mp3 w meta proc Hp Hpath Hres Hf Hd) as (Hp1 & Hl & Hct & _).
    rewrite He, ?Hid, ?Hk in *. fold w1 in Hp1, Hl, Hct.
    split_and!; try done.
    destruct (run_mp3 w1 evs' _ _ _ _ _ Hp1) as (ff' & Hp2).
    unfold strategyOf. by rewrite Hp2.
Qed.

End Format.

(** ** The response headers *)

Section Headers.

Lemma handle_length_inv e rq ps f h : length_inv (handle e rq ps f h).
Proof. unfold handle, length_inv, spawn. by destruct (ytDlpExecWrapper e). Qed.

(** C8.  Along every trace, once the handler delivers a download (it has set
    the headers of the mp3 or of the mp4 response), the response carries
    [Content-Length] exactly when the delivery goes through the temporary
    file; its value is then the decimal size [fs.statSync] returned, which
    is the size of the file on disk for as long as the read stream is open.
    The mp3 path never sets it. *)
Theorem content_length_only_for_mp4
    (e : Env) (rq : Request) (ps : list Proc) (f : FS) (h : Hub)
    (evs : list Event) :
  let w := run (handle e rq ps f h) evs in
  (∀ st, strategyOf w = Some st ->
     is_Some (headers (res w) !! "Content-Length") ↔ st = FileThenStream)
  ∧ (∀ t pid size rs, phase w = Mp4Stream t pid size rs ->
     headers (res w) !! "Content-Length" = Some (pretty size)
     ∧ (rs = RsOpen -> statSync t (fs w) = Some size))
  ∧ (∀ yt dur ck fn ff, phase w = Mp3 yt dur ck fn ff ->
     headers (res w) !! "Content-Length" = None).
Proof.
  intros w.
  assert (Hinv : length_inv w)
    by (apply run_invariant; [apply step_length_inv | apply handle_length_inv]).
  unfold length_inv, strategyOf in *. split_and!.
  - intros st Hst. destruct (phase w); simplify_eq.
    + rewrite Hinv. split; [by intros [? ?] | done].
    + destruct Hinv as [-> _]. split; [done | eauto].
  - intros t pid size rs Hp. by rewrite Hp in Hinv.
  - intros yt dur ck fn ff Hp. by rewrite Hp in Hinv.
Qed.

End Headers.

(** ** Failure of the transcoder *)

Section Transcoder.

Lemma sendProgress_output h k p c s :
  hub_wf h -> conns h !! c = Some s ->
  output c (Hub.sendProgress k p h) = output c h ++ delivered k p s.
Proof.
  intros Hwf Hs. unfold output, delivered.
  rewrite (sendProgress_conn h k p c s Hwf Hs), Hs.
  destruct (sse_open s && bool_decide (sse_key s = k)); simpl; [done |].
  by rewrite app_nil_r.
Qed.

(** The registry of a server that started with an empty one. *)
Lemma run_hub_wf e rq ps f evs : hub_wf (hub (run (handle e rq ps f Hub.empty) evs)).
Proof.
  apply (run_invariant (λ w, hub_wf (hub w))); [apply step_hub_wf |].
  rewrite handle_hub. apply hub_wf_empty.
Qed.






End Transcoder.

(** ** The life of a registry entry *)

Section RegistryEntries.

(** C5, as the code has it.  An entry leaves the registry exactly when an
    open SSE connection of its key is closed and that leaves the emitter
    without listener: the removal is decided by the subscriber side alone,
    on the listener count, and neither reads nor waits for the state of
    the download that publishes under the key; no other event removes an
    entry. *)
Theorem removal_by_last_subscriber (w : World) (ev : Event) (k : string) :
  is_Some (progressEmitters (hub w) !! k) ->
  progressEmitters (hub (step w ev)) !! k = None
  ↔ ∃ c s, ev = SseClose c
           ∧ conns (hub w) !! c = Some s
           ∧ sse_open s = true ∧ sse_key s = k
           ∧ Hub.remove_first c (default [] (emitters (hub w) !! sse_emitter s)) = [].
Proof.
  intros Hk. split.
  - intros Hnone. destruct (sseClose ev) eqn:Hev.
    + destruct ev; try discriminate. exists c.
      unfold step in Hnone. world_simpl.
      rewrite keys_unsubscribe in Hnone.
      destruct (conns (hub w) !! c) as [s|]; [| by rewrite Hnone in Hk; destruct Hk].
      exists s. destruct (sse_open s); simpl in Hnone;
        [| by rewrite Hnone in Hk; destruct Hk].
      repeat case_bool_decide; simpl in Hnone; try done;
        by rewrite Hnone in Hk; destruct Hk.
    + pose proof (step_keeps_keys w ev k Hev Hk) as Hs.
      rewrite Hnone in Hs. by destruct Hs.
  - intros (c & s & -> & Hc & Ho & Hkey & Hlast).
    unfold step. world_simpl. rewrite keys_unsubscribe, Hc, Ho. simpl.
    by rewrite !bool_decide_eq_true_2.
Qed.

(** C10.  [sendProgress] for a key without entry changes nothing at all:
    no entry is created, nothing is written on any connection, and every
    later run of the server is the run it would have been without the
    call; a connection that subscribes afterwards starts with nothing
    written. *)
Theorem publish_without_channel_is_dropped
    (h : Hub) (key : string) (payload : Payload) :
  progressEmitters h !! key = None ->
  Hub.sendProgress key payload h = h
  ∧ progressEmitters (Hub.sendProgress key payload h) !! key = None
  ∧ conns (Hub.subscribe key (Hub.sendProgress key payload h))
    = conns h ++ [mkSse key (length (emitters h)) [] true]
  ∧ (∀ w evs, hub w = h ->
     run (with_hub (Hub.sendProgress key payload) w) evs = run w evs).
Proof.
  intros Hnone.
  pose proof (sendProgress_absent key payload h Hnone) as Hsame.
  rewrite Hsame. split_and!; try done.
  - rewrite subscribe_conns. unfold Hub.getEmitter. by rewrite Hnone.
  - intros w evs Hw. f_equal. destruct w. simpl in *. subst.
    unfold with_hub. simpl. by rewrite Hsame.
Qed.

End RegistryEntries.

(** ** The published percentage *)

Section PublishedPercent.

Lemma percentOf_cap dur seconds n : percentOf dur seconds = PInt n -> n <= 100.
Proof.
  unfold percentOf. destruct (dur =? 0); [done |]. apply min100_floor_cap.
Qed.

(** C7, as the code has it.  A progress callback of ffmpeg, whenever it
    runs, writes a [converting] event on every open progress connection of
    the client key.  Its percentage is [Math.min(100, Math.floor((seconds
    / duration) * 100))] in double arithmetic, where [duration] is the
    metadata duration rounded down to whole seconds, at most 3600: it is
    [null] when that duration is zero, in particular when the metadata has
    none; otherwise it is capped at 100 but not clamped below, and it lies
    between 0 and 100 whenever the time position is not negative and the
    duration positive. *)
Theorem published_percent
    (e : Env) (rq : Request) (f : FS) (evs : list Event)
    (yt : nat) (dur : Z) (ck fn : string) (ff : FfState) (tm : option string) :
  let w := run (handle e rq [] f Hub.empty) evs in
  phase w = Mp3 yt dur ck fn ff ->
  let percent := percentOf dur (toSeconds tm) in
  let p := mkPayload St_converting (Some percent) (Some tm) None in
  (∀ c s, conns (hub w) !! c = Some s ->
     output c (hub (step w (FfProgress tm))) = output c (hub w) ++ delivered ck p s)
  ∧ dur <= 3600
  ∧ (dur = 0 -> percent = PNull)
  ∧ (dur ≠ 0 ->
     percent
     = min100_floor (F64.mul (F64.div (toSeconds tm) (F64.of_Z dur)) (F64.of_Z 100)))
  ∧ (∀ n, percent = PInt n -> n <= 100)
  ∧ (0 < dur -> F64.leb F64.zero (toSeconds tm) = true ->
     ∃ n, percent = PInt n ∧ 0 <= n <= 100)
  ∧ (∀ meta, duration meta = None -> durationOf meta = 0)
  ∧ (∀ meta d, duration meta = Some d -> (d == 0)%Q -> durationOf meta = 0)
  ∧ (∀ evs0 meta proc,
       let w0 := run (handle e rq [] f Hub.empty) evs0 in
       phase w0 = AwaitMeta proc -> format w0 = "mp3" -> durationOf meta <= 3600 ->
       ∃ yt' ck' fn',
         phase (step w0 (resolved e meta))
         = Mp3 yt' (durationOf meta) ck' fn' FfRunning).
Proof.
  intros w Hp percent p.
  assert (Hpath : path_inv w)
    by (apply run_invariant; [apply step_path_inv | apply handle_path_inv]).
  assert (Hwf : hub_wf (hub w)) by apply run_hub_wf.
  unfold path_inv in Hpath. rewrite Hp in Hpath. destruct Hpath as [_ Hdur].
  split_and!; try done.
  - intros c s Hs.
    assert (Hh : hub (step w (FfProgress tm)) = Hub.sendProgress ck p (hub w))
      by (unfold step; by rewrite Hp).
    rewrite Hh. by apply sendProgress_output.
  - by intros ->.
  - intros Hd. unfold percent, percentOf.
    by destruct (Z.eqb_spec dur 0).
  - apply percentOf_cap.
  - intros Hd Hs. apply percentOf_range; [lia | done].
  - apply durationOf_absent.
  - apply durationOf_zero.
  - intros evs0 meta proc w0 Hp0 Hf Hd.
    assert (Hpath0 : path_inv w0)
      by (apply run_invariant; [apply step_path_inv | apply handle_path_inv]).
    assert (Hres0 : streaming_inv w0)
      by (apply run_invariant; [apply step_streaming_inv | apply handle_streaming_inv]).
    assert (He : env w0 = e) by (unfold w0; by rewrite run_env, handle_env).
    destruct (resolved_mp3 w0 meta proc Hp0 Hpath0 Hres0 Hf Hd) as (Hp1 & _).
    rewrite He in Hp1. eauto.
Qed.

End PublishedPercent.

(** * Further properties *)

(** ** Delivery of progress events *)

Section Delivery2.

Implicit Types (h : Hub) (c e : nat) (k : string) (p : Payload).

Lemma hub_wf_step h op : hub_wf h -> hub_wf (hub_step h op).
Proof.
  destruct op; simpl;
    auto using hub_wf_subscribe, hub_wf_unsubscribe, hub_wf_keepAlive,
      hub_wf_sendProgress, hub_wf_getEmitter.
Qed.

Lemma hub_wf_run h ops : hub_wf h -> hub_wf (hub_run h ops).
Proof.
  revert h. induction ops as [|op ops IH]; intros h Hwf; [done |].
  simpl. apply IH. by apply hub_wf_step.
Qed.

Lemma unsubscribe_conn c h c' :
  conns (Hub.unsubscribe c h) !! c'
  = (λ s, if decide (c = c')
          then mkSse (sse_key s) (sse_emitter s) (sse_out s) false
          else s) <$> conns h !! c'.
Proof.
  unfold Hub.unsubscribe.
  destruct (conns h !! c) as [s|] eqn:Hs.
  - destruct (sse_open s) eqn:Ho.
    + assert (Hgoal : alter (λ s0, mkSse (sse_key s0) (sse_emitter s0) (sse_out s0) false)
                        c (conns h) !! c'
                      = (λ s, if decide (c = c')
                              then mkSse (sse_key s) (sse_emitter s) (sse_out s) false
                              else s) <$> conns h !! c').
      { rewrite list_lookup_alter.
        destruct (decide (c = c')) as [->|?]; destruct (conns h !! c'); done. }
      cbv zeta. by destruct (_ =? 0)%nat.
    + destruct (decide (c = c')) as [->|?].
      * rewrite Hs. simpl. f_equal. destruct s; simpl in *. by subst.
      * by destruct (conns h !! c').
  - destruct (decide (c = c')) as [->|?]; [by rewrite Hs |].
    by destruct (conns h !! c').
Qed.

(** What one call does to a connection that exists. *)
Lemma hub_step_conn h op c s :
  hub_wf h -> conns h !! c = Some s ->
  conns (hub_step h op) !! c
  = Some (if closes c op
          then mkSse (sse_key s) (sse_emitter s) (sse_out s) false
          else if sse_open s
               then mkSse (sse_key s) (sse_emitter s)
                      (sse_out s ++ written c (sse_key s) op) true
               else s).
Proof.
  intros Hwf Hs. destruct op as [k|c'|c'|k p|k]; cbn [hub_step closes written].
  - rewrite subscribe_conns. rewrite (lookup_app_l_Some _ _ _ _ Hs).
    rewrite app_nil_r. destruct s as [? ? ? []]; done.
  - rewrite unsubscribe_conn, Hs. simpl. f_equal.
    destruct (decide (c' = c)) as [->|Hne].
    + by rewrite bool_decide_eq_true_2.
    + rewrite bool_decide_eq_false_2 by done.
      rewrite app_nil_r. destruct s as [? ? ? []]; done.
  - rewrite keepAlive_conn, Hs. simpl. f_equal.
    destruct (decide (c' = c)) as [->|Hne]; [done |].
    rewrite app_nil_r. destruct s as [? ? ? []]; done.
  - rewrite (sendProgress_conn h k p c s Hwf Hs). f_equal.
    destruct (sse_open s) eqn:Ho; simpl; [| done].
    case_bool_decide as Hk.
    + subst. by rewrite decide_True.
    + rewrite decide_False by congruence. rewrite app_nil_r.
      destruct s; simpl in *; by subst.
  - destruct (getEmitter_registered k h) as [_ ->]. rewrite Hs. f_equal.
    rewrite app_nil_r. destruct s as [? ? ? []]; done.
Qed.

Lemma hub_run_open h ops c s :
  hub_wf h -> conns h !! c = Some s -> sse_open s = true ->
  Forall (λ op, closes c op = false) ops ->
  conns (hub_run h ops) !! c
  = Some (mkSse (sse_key s) (sse_emitter s)
            (sse_out s ++ concat (written c (sse_key s) <$> ops)) true).
Proof.
  intros Hwf Hs Ho Hops. revert h s Hwf Hs Ho.
  induction Hops as [|op ops Hop Hops IH]; intros h s Hwf Hs Ho.
  - simpl. rewrite app_nil_r, Hs. destruct s; simpl in *; by subst.
  - cbn [hub_run foldl]. fold (hub_run (hub_step h op) ops).
    pose proof (hub_step_conn h op c s Hwf Hs) as Hstep.
    rewrite Hop, Ho in Hstep.
    rewrite (IH _ _ (hub_wf_step h op Hwf) Hstep eq_refl). simpl.
    by rewrite <- app_assoc.
Qed.

Lemma hub_run_closed h ops c s :
  hub_wf h -> conns h !! c = Some s -> sse_open s = false ->
  conns (hub_run h ops) !! c = Some s.
Proof.
  revert h. induction ops as [|op ops IH]; intros h Hwf Hs Ho; [done |].
  cbn [hub_run foldl]. fold (hub_run (hub_step h op) ops).
  apply IH; [by apply hub_wf_step | | done].
  rewrite (hub_step_conn h op c s Hwf Hs), Ho.
  destruct (closes c op); [| done]. destruct s; simpl in *; by subst.
Qed.

(** X1.  A connection that subscribes to [k] receives, from then until its
    ['close'], exactly the payloads published under [k], in the order of
    their publication, and its own keep-alive lines; nothing that was
    published earlier, and nothing published under another key. *)
Theorem subscriber_receives_in_order
    (ops0 ops : list HubOp) (k : string) :
  let h := hub_run Hub.empty ops0 in
  let c := length (conns h) in
  Forall (λ op, closes c op = false) ops ->
  output c (hub_run (Hub.subscribe k h) ops) = concat (written c k <$> ops).
Proof.
  intros h c Hops.
  assert (Hwf : hub_wf (Hub.subscribe k h))
    by apply hub_wf_subscribe, hub_wf_run, hub_wf_empty.
  assert (Hs : conns (Hub.subscribe k h) !! c
               = Some (mkSse k (Hub.getEmitter k h).1 [] true)).
  { rewrite subscribe_conns. by rewrite lookup_app_r, Nat.sub_diag. }
  unfold output. by rewrite (hub_run_open _ ops c _ Hwf Hs eq_refl Hops).
Qed.

(** X2.  Once the ['close'] callback of a connection has run, nothing is
    written on it any more, whatever is published or subscribed later. *)
Theorem closed_connection_is_silent (ops0 ops : list HubOp) (c : nat) :
  let h := hub_run Hub.empty ops0 in
  is_Some (conns h !! c) ->
  output c (hub_run (Hub.unsubscribe c h) ops) = output c h.
Proof.
  intros h [s Hs].
  assert (Hwf : hub_wf h) by apply hub_wf_run, hub_wf_empty.
  assert (Hc : conns (Hub.unsubscribe c h) !! c
               = Some (mkSse (sse_key s) (sse_emitter s) (sse_out s) false)).
  { rewrite unsubscribe_conn, Hs. simpl. by rewrite decide_True. }
  unfold output.
  rewrite (hub_run_closed _ ops c _ (hub_wf_unsubscribe c h Hwf) Hc eq_refl).
  by rewrite Hs.
Qed.

End Delivery2.

(** ** The registry of a running server *)

Section RegistryOfWorld.

Implicit Types (w : World) (ev : Event).





End RegistryOfWorld.

(** ** The download and the registry *)

Section Erasure.

Implicit Types (w : World) (ev : Event).

Lemma erase_step w ev : erase (step w ev) = erase (step (erase w) ev).
Proof.
  unfold erase. step_cases ev; reflexivity.
Qed.

Lemma erase_sse w ev : isSse ev = true -> erase (step w ev) = erase w.
Proof. intros H. unfold erase. destruct ev; done. Qed.

Lemma erase_run w1 w2 evs :
  erase w1 = erase w2 ->
  erase (run w1 evs) = erase (run w2 (filter (λ ev, isSse ev = false) evs)).
Proof.
  revert w1 w2. induction evs as [|ev evs IH]; intros w1 w2 Hw; [done |].
  rewrite filter_cons. destruct (isSse ev) eqn:Hev.
  - rewrite decide_False by done. rewrite run_cons. apply IH.
    by rewrite erase_sse.
  - rewrite decide_True by done. rewrite !run_cons. apply IH.
    by rewrite erase_step, Hw, <- erase_step.
Qed.

Lemma erase_fields w1 w2 :
  erase w1 = erase w2 ->
  procs w1 = procs w2 ∧ fs w1 = fs w2 ∧ res w1 = res w2
  ∧ closed w1 = closed w2 ∧ phase w1 = phase w2.
Proof.
  unfold erase, with_hub. intros H. injection H. intros. by split_and!.
Qed.

(** X4.  The registry never steers a download.  Whatever the registry holds
    and whatever happens on [/api/progress/:key], the children, the
    temporary directory, the response and the phase of a download are the
    ones it would have with an empty registry and no SSE client at all. *)
Theorem progress_never_steers_download
    (e : Env) (rq : Request) (ps : list Proc) (f : FS) (h1 h2 : Hub)
    (evs : list Event) :
  let w1 := run (handle e rq ps f h1) evs in
  let w2 := run (handle e rq ps f h2) (filter (λ ev, isSse ev = false) evs) in
  procs w1 = procs w2 ∧ fs w1 = fs w2 ∧ res w1 = res w2
  ∧ closed w1 = closed w2 ∧ phase w1 = phase w2.
Proof.
  intros w1 w2. apply erase_fields, erase_run.
  unfold handle, erase, spawn. by destruct (ytDlpExecWrapper e).
Qed.

End Erasure.

(** ** The JSON replies *)

Section Replies.

Implicit Types (w : World) (ev : Event).

Lemma step_reply_inv w ev : reply_inv w -> reply_inv (step w ev).
Proof.
  intros [H1 H2].
  step_cases ev; unfold reply_inv; use_phase w; try done;
    simplify_eq; world_simpl;
    try rewrite H1 in *; world_simpl;
    try done; (split; [done |]); try done;
    try (left; by split);
    try (right; split_and!; try done; eauto; fail);
    destruct H2 as [[? ?] | (? & ? & ? & ?)]; try congruence;
    try (left; by split); right; split_and!; try done; eauto.
Qed.

Lemma step_reply_final w ev :
  reply_inv w -> is_Some (body (res w)) -> res (step w ev) = res w.
Proof.
  intros [H1 H2] [b Hb].
  destruct H2 as [[? ?] | (Hst & _ & Hs & Hf)]; [congruence |].
  step_cases ev; use_phase w; try done;
    try (rewrite H1 in Hb; discriminate);
    try congruence;
    destruct (res w); simpl in *; by subst.
Qed.

Lemma handle_reply_inv e rq ps f h : reply_inv (handle e rq ps f h).
Proof.
  unfold handle, reply_inv, spawn.
  destruct (ytDlpExecWrapper e); simpl; split; auto.
Qed.

(** X5.  The handler answers with JSON at most once, and only as long as no
    header was sent: along every trace the status is 200 with no JSON body,
    or it is 400 or 500 with a JSON body on a finished response; and once a
    JSON body was sent no later event changes the response. *)
Theorem json_reply_is_final
    (e : Env) (rq : Request) (ps : list Proc) (f : FS) (h : Hub)
    (evs evs' : list Event) :
  let w := run (handle e rq ps f h) evs in
  ((statusCode (res w) = 200 ∧ body (res w) = None)
   ∨ ((statusCode (res w) = 400 ∨ statusCode (res w) = 500)
      ∧ is_Some (body (res w)) ∧ headersSent (res w) = true
      ∧ finished (res w) = true))
  ∧ (is_Some (body (res w)) -> res (run w evs') = res w)
  ∧ (∀ ev, body (res (step w ev)) ≠ body (res w) -> headersSent (res w) = false).
Proof.
  intros w0.
  assert (Hinv : reply_inv w0)
    by (apply run_invariant; [apply step_reply_inv | apply handle_reply_inv]).
  generalize dependent w0. intros w Hinv.
  split_and!.
  - apply Hinv.
  - intros Hb.
    apply (run_invariant (λ w', reply_inv w' ∧ res w' = res w)); [| done].
    intros w' ev [Hi Hr]. split; [by apply step_reply_inv |].
    rewrite <- Hr. apply step_reply_final; [done | by rewrite Hr].
  - intros ev Hne. destruct (headersSent (res w)) eqn:Hs; [| done].
    destruct Hne. destruct (body (res w)) eqn:Hb.
    + rewrite (step_reply_final w ev Hinv); [done | by rewrite Hb].
    + destruct Hinv as [H1 _].
      step_cases ev; use_phase w; try done; try congruence;
        rewrite H1 in Hs; done.
Qed.

End Replies.

(** ** The children of a request *)

Section Children.

Implicit Types (w : World) (ev : Event).


End Children.

(** ** Failure of the lookup and cancellation of the download *)

Section Cancel.

Implicit Types (w : World) (ev : Event).



(** X7.  When the metadata lookup fails (the child cannot be started, it
    exits with a code other than 0, its output is not JSON, or the wrapper
    rejects) the answer is the 500 "Download failed" carrying the error, no
    download header is set, no other child is started, no child is
    signalled and the directory is untouched, whatever happens
    afterwards. *)
Theorem failed_lookup_replies_500
    (e : Env) (rq : Request) (files0 : gmap string N) (h : Hub)
    (ev : Event) (err : Err) (evs : list Event) :
  lookupFailure e ev = Some err ->
  let w := run (handle e rq [] (mkFS files0 []) h) (ev :: evs) in
  statusCode (res w) = 500
  ∧ body (res w) = Some (failedReply err)
  ∧ headers (res w) = ∅
  ∧ commands w = (if ytDlpExecWrapper e then [] else [YtJson (urlOf (params_id rq))])
  ∧ Forall (λ p, signals p = []) (procs w)
  ∧ fs w = mkFS files0 [].
Proof.
  intros Hfail w.
  set (w1 := step (handle e rq [] (mkFS files0 []) h) ev).
  assert (H1 : phase w1 = Replied ∧ res w1 = json 500 (failedReply err) res0
               ∧ commands w1 = (if ytDlpExecWrapper e then []
                                else [YtJson (urlOf (params_id rq))])
               ∧ Forall (λ p, signals p = []) (procs w1)
               ∧ fs w1 = mkFS files0 []).
  { subst w1. unfold lookupFailure, handle, spawn, commands in *.
    destruct (ytDlpExecWrapper e); destruct ev; try done; simpl in *;
      repeat case_match; simplify_eq; unfold catchBlock; simpl;
      split_and!; try done; by repeat constructor. }
  destruct H1 as (Hp & Hr & Hc & Hs & Hf).
  subst w. rewrite run_cons. fold w1.
  destruct (run_replied w1 evs Hp) as (_ & Hres & Hprocs & Hfs).
  unfold commands in *. rewrite Hres, Hprocs, Hfs, Hr. done.
Qed.


End Cancel.

(** ** File names *)

Section Names.

Lemma all_chars_app p a b :
  all_chars p (a +:+ b) = all_chars p a && all_chars p b.
Proof. induction a as [|c a IH]; simpl; [done |]. by rewrite IH, andb_assoc. Qed.

Lemma all_chars_impl (p q : ascii -> bool) s :
  (∀ c, p c = true -> q c = true) -> all_chars p s = true -> all_chars q s = true.
Proof.
  intros Hpq. induction s as [|c s IH]; simpl; [done |].
  intros [Hc Hs]%andb_prop. by rewrite (Hpq c Hc), IH.
Qed.

Lemma filter_chars_all p s : all_chars p (JS.filter_chars p s) = true.
Proof.
  induction s as [|c s IH]; simpl; [done |].
  destruct (p c) eqn:E; simpl; [by rewrite E |]. done.
Qed.

Lemma filter_chars_id p s : all_chars p s = true -> JS.filter_chars p s = s.
Proof.
  induction s as [|c s IH]; simpl; [done |].
  intros [-> Hs]%andb_prop. by rewrite IH.
Qed.

Lemma filter_chars_none p s :
  all_chars (λ c, negb (p c)) s = true -> JS.filter_chars p s = EmptyString.
Proof.
  induction s as [|c s IH]; simpl; [done |].
  intros [Hc Hs]%andb_prop. apply negb_true_iff in Hc. by rewrite Hc, IH.
Qed.

Lemma substring0_all p n s :
  all_chars p s = true -> all_chars p (JS.substring0 n s) = true.
Proof.
  revert s. induction n as [|n IH]; intros [|c s]; simpl; try done.
  intros [-> Hs]%andb_prop. by rewrite IH.
Qed.

Lemma substring0_length n s : (String.length (JS.substring0 n s) ≤ n)%nat.
Proof.
  revert s. induction n as [|n IH]; intros [|c s]; simpl; try lia.
  specialize (IH s). lia.
Qed.

Lemma substring0_id n s : (String.length s ≤ n)%nat -> JS.substring0 n s = s.
Proof.
  revert s. induction n as [|n IH]; intros [|c s]; simpl; try done; try lia.
  intros H. rewrite IH; [done | lia].
Qed.

Lemma squash_spaces_path b s :
  all_chars titleChar s = true -> all_chars pathChar (JS.squash_spaces b s) = true.
Proof.
  revert b. induction s as [|c s IH]; intros b; simpl; [done |].
  intros [Hc Hs]%andb_prop.
  destruct (JS.is_space c) eqn:Esp.
  - destruct b; simpl; by rewrite IH.
  - simpl. rewrite IH by done. unfold titleChar in Hc. rewrite Esp in Hc.
    unfold pathChar. rewrite andb_true_r.
    by rewrite orb_false_r in Hc.
Qed.

Lemma pretty_N_char_digit x : JS.is_digit (pretty_N_char x) = true.
Proof. unfold pretty_N_char. by repeat case_match. Qed.

Lemma pretty_N_go_digits x s :
  all_chars JS.is_digit s = true -> all_chars JS.is_digit (pretty_N_go x s) = true.
Proof.
  revert s. induction (N.lt_wf_0 x) as [x _ IH]; intros s Hs.
  assert (x = 0 ∨ 0 < x)%N as [->|?] by lia; [by rewrite pretty_N_go_0 |].
  rewrite pretty_N_go_step by done. apply IH; [by apply N.div_lt |].
  simpl. by rewrite pretty_N_char_digit.
Qed.

(** [String(n)] of a natural number is a run of decimal digits. *)
Lemma pretty_N_digits (n : N) : all_chars JS.is_digit (pretty n) = true.
Proof.
  unfold pretty, pretty_N. case_decide; [done |]. by apply pretty_N_go_digits.
Qed.

Lemma pretty_N_nonempty (n : N) : (1 ≤ String.length (pretty n))%nat.
Proof.
  unfold pretty, pretty_N. case_decide; [simpl; lia |].
  assert (Hlen : ∀ x s, (String.length s ≤ String.length (pretty_N_go x s))%nat).
  { intros x. induction (N.lt_wf_0 x) as [x _ IH]; intros s.
    assert (x = 0 ∨ 0 < x)%N as [->|?] by lia; [by rewrite pretty_N_go_0 |].
    rewrite pretty_N_go_step by done.
    etrans; [| by eapply IH, N.div_lt]. simpl. lia. }
  rewrite pretty_N_go_step by lia.
  etrans; [| apply Hlen]. simpl. lia.
Qed.

Lemma length_app_string (a b : string) :
  String.length (a +:+ b) = (String.length a + String.length b)%nat.
Proof. induction a as [|c a IH]; simpl; [done |]. by rewrite IH. Qed.

(** X9.  The name derived from the title (line 194) has at most 60
    characters, all of them letters, digits, underscores, white space,
    dots or hyphens.  A title that is already such a name is kept as it
    is.  The fallback [download] stands for a title that is absent or
    empty only: a title that consists of removed characters gives the
    empty name. *)
Theorem safe_title_is_sanitised (meta : Meta) :
  (String.length (safeTitleOf meta) ≤ 60)%nat
  ∧ all_chars titleChar (safeTitleOf meta) = true
  ∧ (title meta = None ∨ title meta = Some EmptyString ->
     safeTitleOf meta = "download")
  ∧ (∀ t, title meta = Some t -> t ≠ EmptyString ->
       all_chars titleChar t = true -> (String.length t ≤ 60)%nat ->
       safeTitleOf meta = t)
  ∧ (∀ t, title meta = Some t -> t ≠ EmptyString ->
       all_chars (λ c, negb (titleChar c)) t = true ->
       safeTitleOf meta = EmptyString).
Proof.
  unfold safeTitleOf. fold titleChar. split_and!.
  - apply substring0_length.
  - apply substring0_all, filter_chars_all.
  - by intros [-> | ->].
  - intros t Ht Hne Hall Hlen. rewrite Ht. unfold or_else.
    rewrite decide_False by done.
    by rewrite filter_chars_id, substring0_id.
  - intros t Ht Hne Hall. rewrite Ht. unfold or_else.
    rewrite decide_False by done.
    rewrite filter_chars_none by done. reflexivity.
Qed.

(** The escapes of [encodeURIComponent]. *)
Lemma encode_char_header c r :
  all_chars headerChar (JS.encodeURIComponent r) = true ->
  all_chars headerChar (JS.encodeURIComponent (String c r)) = true.
Proof.
  intros Hr.
  destruct c as [[] [] [] [] [] [] [] []];
    cbn [JS.encodeURIComponent]; vm_compute (JS.uri_unreserved _);
    cbv iota; try vm_compute (JS.code _ <? 128); cbv iota;
    unfold JS.escape; cbn [all_chars]; rewrite Hr; vm_compute; reflexivity.
Qed.

(** X10.  Whatever the file name, the value of the [Content-Disposition]
    header is [attachment; filename=] followed by one quoted string of
    printable ASCII characters other than the double quote, the semicolon
    and the backslash: the name can neither end the quoted string early
    nor continue the header on another line. *)
Theorem attachment_header_is_wellformed (filename : string) :
  ∃ enc, attachment filename = "attachment; filename=" +:+ dquote +:+ enc +:+ dquote
         ∧ all_chars headerChar enc = true
         ∧ (filename = EmptyString ↔ enc = EmptyString).
Proof.
  exists (JS.encodeURIComponent filename). split_and!; [done | |].
  - induction filename as [|c r IH]; [done |]. by apply encode_char_header.
  - split; [by intros -> |].
    destruct filename as [|c r]; [done |]. cbn [JS.encodeURIComponent].
    unfold JS.escape. by repeat case_match.
Qed.

(** The name of the temporary file (line 277). *)
Lemma temp_name_path (meta : Meta) (n : N) :
  let base := JS.squash_spaces false (safeTitleOf meta) +:+ "-" +:+ pretty n +:+ ".mp4" in
  all_chars pathChar base = true ∧ (6 ≤ String.length base)%nat.
Proof.
  intros base. subst base. split.
  - rewrite !all_chars_app.
    rewrite squash_spaces_path
      by (unfold safeTitleOf; fold titleChar; apply substring0_all, filter_chars_all).
    rewrite (all_chars_impl JS.is_digit pathChar (pretty n)); [done | | apply pretty_N_digits].
    intros c Hc. unfold pathChar, JS.is_word. by rewrite Hc, !orb_true_r.
  - rewrite !length_app_string. pose proof (pretty_N_nonempty n). simpl. lia.
Qed.

Lemma step_temp_inv w ev : temp_inv w -> temp_inv (step w ev).
Proof.
  intros H t. pose proof (step_env w ev) as He. revert He.
  step_cases ev; unfold temp_inv, tempFilePathOf in *; use_phase w;
    intros He; rewrite ?He; try done; try (by apply H);
    intros ?; simplify_eq; try (by apply H);
    eexists; (split; [reflexivity |]); apply temp_name_path.
Qed.

(** X11.  The temporary file of an mp4 download is always a direct entry
    of the temporary directory: its name has at least six characters, all
    of them letters, digits, underscores, dots or hyphens, so that no
    title can make it a path into another directory, and it holds no
    white space. *)
Theorem temp_file_stays_in_downloads_dir
    (e : Env) (rq : Request) (ps : list Proc) (f : FS) (h : Hub)
    (evs : list Event) :
  let w := run (handle e rq ps f h) evs in
  match tempFilePathOf w with
  | Some t =>
      ∃ base, t = downloadsDir e +:+ "/" +:+ base
              ∧ all_chars pathChar base = true
              ∧ (6 ≤ String.length base)%nat
  | None => True
  end
  ∧ pathChar "/" = false ∧ pathChar " " = false.
Proof.
  intros w. split; [| done].
  assert (Hinv : temp_inv w).
  { apply run_invariant; [apply step_temp_inv |].
    intros t. unfold handle, tempFilePathOf, spawn.
    by destruct (ytDlpExecWrapper e). }
  assert (He : env w = e) by (unfold w; by rewrite run_env, handle_env).
  destruct (tempFilePathOf w) as [t|] eqn:Ht; [| done].
  rewrite <- He. by apply Hinv.
Qed.

End Names.

(** * Concrete runs *)

(** C2 at a failing input: the client leaves while the metadata lookup of an
    mp3 download runs.  No callback is registered yet, so the lookup child
    keeps running without a signal; when it is done the handler starts the
    fetch child, whose ['close'] callback comes too late: the event was
    already emitted and no later one reaches it.  This holds for every
    request: after a disconnect during the lookup no child of the operation
    is ever sent [SIGKILL], whatever happens next. *)
Theorem disconnect_during_lookup_signals_nothing :
  (let w1 := run (handle env0 rq_mp3 [] fs0 Hub.empty) [ReqClose true] in
   let w2 := run w1 [MetaProcClose 0 (Some meta0)] in
   closed w1 = true
   ∧ procs w1 = [mkProc (YtJson (urlOf "abc")) Running []]
   ∧ procs w2 = [mkProc (YtJson (urlOf "abc")) Closed [];
                 mkProc (YtAudio (urlOf "abc")) Running []]
   ∧ (∀ b, procs (step w2 (ReqClose b)) = procs w2))
  ∧ (∀ (e : Env) (rq : Request) (f : FS) (h : Hub) (b : bool) (evs : list Event),
       let w := run (handle e rq [] f h) (ReqClose b :: evs) in
       phase (step (handle e rq [] f h) (ReqClose b))
       = AwaitMeta (if ytDlpExecWrapper e then None else Some 0%nat)
       ∧ procs (step (handle e rq [] f h) (ReqClose b))
         = (if ytDlpExecWrapper e then []
            else [mkProc (YtJson (urlOf (params_id rq))) Running []])
       ∧ closed w = true ∧ never_killed (procs w)).
Proof.
  split; [split_and!; vm_compute; reflexivity |].
  intros e rq f h b evs w.
  assert (H1 : closed (step (handle e rq [] f h) (ReqClose b)) = true
               ∧ never_killed (procs (step (handle e rq [] f h) (ReqClose b)))).
  { unfold handle, spawn, never_killed.
    destruct (ytDlpExecWrapper e); simpl; split; try done.
    apply Forall_singleton. simpl. apply not_elem_of_nil. }
  split_and!.
  - unfold handle, spawn. by destruct (ytDlpExecWrapper e).
  - unfold handle, spawn. by destruct (ytDlpExecWrapper e).
  - subst w. rewrite run_cons.
    by apply (run_invariant (λ w, closed w = true ∧ never_killed (procs w)));
      [intros ? ?; apply step_closed_never_killed |].
  - subst w. rewrite run_cons.
    by apply (run_invariant (λ w, closed w = true ∧ never_killed (procs w)));
      [intros ? ?; apply step_closed_never_killed |].
Qed.

(** C3, the sentence as written fails twice: when the lookup fails the answer
    is a 500, and when it succeeds the lookup child is there before the
    400. *)
Lemma invalid_format_not_as_stated :
  ¬ invalid_format_always_400 ∧ ¬ invalid_format_spawns_nothing.
Proof.
  split; intros H.
  - specialize (H env0 rq_wav [MetaProcClose 1 None]).
    destruct H as [H _]; [vm_compute; reflexivity .. |].
    vm_compute in H. discriminate.
  - specialize (H env0 rq_wav [MetaProcClose 0 (Some meta0)]).
    vm_compute in H. specialize (H eq_refl eq_refl). discriminate.
Qed.

Lemma invalid_format_rejected_run :
  acceptedFormat (formatOf (query_format rq_wav)) = false
  ∧ let w := run (handle env0 rq_wav [] fs0 Hub.empty)
               [MetaProcClose 0 (Some meta0); ReqClose false] in
    statusCode (res w) = 400 ∧ body (res w) = Some invalidFormatReply
    ∧ (length (procs w) ≤ 1)%nat.
Proof.
  assert (Hf : acceptedFormat (formatOf (query_format rq_wav)) = false)
    by (vm_compute; reflexivity).
  split; [exact Hf |].
  destruct (invalid_format_rejected env0 rq_wav ∅ Hub.empty
              [MetaProcClose 0 (Some meta0); ReqClose false] Hf)
    as (_ & Hlen & _ & Hok).
  destruct (Hok meta0 [ReqClose false]) as [Hs Hb]; [vm_compute; discriminate |].
  split_and!; assumption.
Defined.

(** C4, the sentence as written fails twice: a duration of 3600.5 seconds
    exceeds the ceiling and is let through, and the lookup child is there
    before the 400. *)
Lemma over_ceiling_not_as_stated :
  ¬ over_ceiling_rejected ∧ ¬ over_ceiling_spawns_nothing.
Proof.
  split; intros H.
  - specialize (H env0 rq_mp3 (mkMeta (Some "t") (Some (7201 # 2))) (7201 # 2)
                  eq_refl eq_refl).
    vm_compute in H. discriminate.
  - specialize (H env0 rq_mp3 (mkMeta (Some "t") (Some (3601 # 1)))).
    vm_compute in H. specialize (H eq_refl). discriminate.
Qed.

Lemma too_long_rejected_run :
  3600 < durationOf (mkMeta (Some "t") (Some (3601 # 1)))
  ∧ let w := run (handle env0 rq_mp3 [] fs0 Hub.empty)
               [resolved env0 (mkMeta (Some "t") (Some (3601 # 1))); ReqClose true] in
    statusCode (res w) = 400 ∧ body (res w) = Some tooLongReply.
Proof.
  assert (Hd : 3600 < durationOf (mkMeta (Some "t") (Some (3601 # 1))))
    by (vm_compute; reflexivity).
  split; [exact Hd |].
  destruct (too_long_rejected env0 rq_mp3 ∅ Hub.empty
              (mkMeta (Some "t") (Some (3601 # 1))) [ReqClose true]) as [H _].
  destruct (H Hd) as (Hs & Hb & _). split; assumption.
Defined.

(** C5, the sentence as written fails: the only subscriber of a running mp3
    download goes away and the entry is removed while the download is still
    publishing under the key. *)
Lemma removal_ignores_producer : ¬ removal_is_reference_counted.
Proof.
  intros H.
  specialize (H env0 (mkRequest "abc" None None)
                [SseOpen "abc_mp3"; MetaProcClose 0 (Some meta0)]
                (SseClose 0) "abc_mp3").
  destruct H as [_ H]; [vm_compute; eauto | vm_compute; reflexivity |].
  vm_compute in H. discriminate.
Qed.

Lemma removal_by_last_subscriber_run :
  let w := run (handle env0 (mkRequest "abc" None None) [] fs0 Hub.empty)
             [SseOpen "abc_mp3"; MetaProcClose 0 (Some meta0)] in
  is_Some (progressEmitters (hub w) !! "abc_mp3")
  ∧ progressEmitters (hub (step w (SseClose 0))) !! "abc_mp3" = None
  ∧ producing (step w (SseClose 0)) "abc_mp3" = true.
Proof.
  intros w.
  assert (Hk : is_Some (progressEmitters (hub w) !! "abc_mp3"))
    by (vm_compute; eauto).
  split_and!; [exact Hk | | vm_compute; reflexivity].
  apply (removal_by_last_subscriber w (SseClose 0) "abc_mp3" Hk).
  exists 0%nat, (mkSse "abc_mp3" 0 [] true).
  split_and!; vm_compute; reflexivity.
Defined.


(** C7, the sentence as written fails three times.  ffmpeg is known to
    report the time mark [-577014:32:22.77] for a stream without time
    stamps, and the percentage published for it is far below zero.  The
    ratio is taken against the duration rounded down: ten seconds into a
    video of 10.5 seconds the code publishes 100 where the ratio is 95.
    And the arithmetic is that of doubles: 29 seconds into a video of 100
    seconds the quotient [29 / 100] times 100 is just below 29, and the
    code publishes 28. *)
Lemma percent_not_as_stated :
  percentOf (durationOf meta0) (toSeconds (Some "-577014:32:22.77"))
  = PInt (-20772484573)
  ∧ percentOf (durationOf (mkMeta None (Some (21 # 2)))) (toSeconds (Some "00:00:10.00"))
    = PInt 100
  ∧ specPercent (Some (21 # 2)) (10 # 1) = PInt 95
  ∧ percentOf (durationOf (mkMeta None (Some (100 # 1)))) (toSeconds (Some "00:00:29.00"))
    = PInt 28
  ∧ specPercent (Some (100 # 1)) (29 # 1) = PInt 29
  ∧ ¬ percent_is_clamped.
Proof.
  split_and!; [vm_compute; reflexivity .. |].
  intros H.
  assert (E : ∃ s, F64.value (toSeconds (Some "00:00:29.00")) = Some s
                   ∧ specPercent (duration (mkMeta None (Some (100 # 1)))) s = PInt 29).
  { eexists. split; vm_compute; reflexivity. }
  destruct E as (s & Hs & Hspec).
  specialize (H (mkMeta None (Some (100 # 1))) (Some "00:00:29.00") s Hs).
  rewrite Hspec in H. vm_compute in H. discriminate.
Qed.

(** Five seconds into the conversion of a video of ten seconds, a progress
    connection that had received [starting] receives [converting] with 50
    percent. *)
Lemma published_percent_run :
  let w := run (handle env0 rq_mp3 [] fs0 Hub.empty)
             [SseOpen "abc_mp3"; MetaProcClose 0 (Some meta0); FfStart] in
  phase w = Mp3 1 10 "abc_mp3" "My Song live.mp3" FfRunning
  ∧ F64.leb F64.zero (toSeconds (Some "00:00:05.00")) = true
  ∧ percentOf 10 (toSeconds (Some "00:00:05.00")) = PInt 50
  ∧ output 0 (hub (step w (FfProgress (Some "00:00:05.00"))))
    = [Data (mkPayload St_starting (Some (PInt 0)) None None);
       Data (mkPayload St_converting (Some (PInt 50)) (Some (Some "00:00:05.00")) None)].
Proof.
  intros w.
  assert (Hp : phase w = Mp3 1 10 "abc_mp3" "My Song live.mp3" FfRunning)
    by (vm_compute; reflexivity).
  assert (Hs : F64.leb F64.zero (toSeconds (Some "00:00:05.00")) = true)
    by (vm_compute; reflexivity).
  destruct (published_percent env0 rq_mp3 fs0
              [SseOpen "abc_mp3"; MetaProcClose 0 (Some meta0); FfStart]
              1%nat 10 "abc_mp3" "My Song live.mp3" FfRunning
              (Some "00:00:05.00") Hp) as (Hout & _ & _ & _ & _ & Hrange & _).
  destruct (Hrange ltac:(lia) Hs) as (n & Hn & Hn0 & Hn100).
  split_and!; [exact Hp | exact Hs | vm_compute; reflexivity |].
  etrans; [apply (Hout 0%nat (mkSse "abc_mp3" 0
                     [Data (mkPayload St_starting (Some (PInt 0)) None None)] true));
           vm_compute; reflexivity |].
  vm_compute. reflexivity.
Defined.

(** A complete mp4 download of a 1000-byte file announces 1000 bytes. *)
Lemma content_length_run :
  let w := run (handle env0 rq_mp4 [] fs0 Hub.empty)
             [MetaProcClose 0 (Some meta0); DlWrite 1000; DlProcClose 0] in
  phase w = Mp4Stream temp0 1 1000 RsOpen
  ∧ headers (res w) !! "Content-Length" = Some "1000"
  ∧ statSync temp0 (fs w) = Some 1000%N.
Proof.
  intros w.
  assert (Hp : phase w = Mp4Stream temp0 1 1000 RsOpen) by (vm_compute; reflexivity).
  destruct (content_length_only_for_mp4 env0 rq_mp4 [] fs0 Hub.empty
              [MetaProcClose 0 (Some meta0); DlWrite 1000; DlProcClose 0])
    as (_ & Hmp4 & _).
  destruct (Hmp4 _ _ _ _ Hp) as [Hl Hs].
  split_and!; [exact Hp | exact Hl | by apply Hs].
Defined.

(** An event published before anybody subscribed is lost. *)
Lemma publish_without_channel_is_dropped_run :
  progressEmitters Hub.empty !! "abc_mp3" = None
  ∧ Hub.sendProgress "abc_mp3" (mkPayload St_done (Some (PInt 100)) None None)
      Hub.empty = Hub.empty
  ∧ conns (Hub.subscribe "abc_mp3"
             (Hub.sendProgress "abc_mp3"
                (mkPayload St_done (Some (PInt 100)) None None) Hub.empty))
    = [mkSse "abc_mp3" 0 [] true].
Proof.
  assert (Hn : progressEmitters Hub.empty !! "abc_mp3" = None) by reflexivity.
  destruct (publish_without_channel_is_dropped Hub.empty "abc_mp3"
              (mkPayload St_done (Some (PInt 100)) None None) Hn)
    as (Hsame & _ & Hconns & _).
  split_and!; [exact Hn | exact Hsame | exact Hconns].
Defined.

(** ** Runs for the further properties *)

(** A connection to [abc_mp3] opened after a first [starting] event sees
    the later events of its key and its keep-alive, not the earlier event
    and not those of [xyz_mp3]. *)
Lemma subscriber_receives_in_order_run :
  let h := hub_run Hub.empty [OpSubscribe "xyz_mp3"; OpPublish "abc_mp3" p_start] in
  output 1 (hub_run (Hub.subscribe "abc_mp3" h)
              [OpPublish "abc_mp3" p_start; OpKeepAlive 1; OpPublish "xyz_mp3" p_done;
               OpClose 0; OpPublish "abc_mp3" p_done])
  = [Data p_start; KeepAlive; Data p_done].
Proof.
  pose proof (subscriber_receives_in_order
                [OpSubscribe "xyz_mp3"; OpPublish "abc_mp3" p_start]
                [OpPublish "abc_mp3" p_start; OpKeepAlive 1; OpPublish "xyz_mp3" p_done;
                 OpClose 0; OpPublish "abc_mp3" p_done] "abc_mp3") as H.
  vm_compute in H. vm_compute. apply H. repeat constructor.
Defined.

(** After its ['close'], a connection that had received one event receives
    nothing of what is published under its key. *)
Lemma closed_connection_is_silent_run :
  let h := hub_run Hub.empty [OpSubscribe "abc_mp3"; OpPublish "abc_mp3" p_start] in
  output 0 (hub_run (Hub.unsubscribe 0 h)
              [OpPublish "abc_mp3" p_done; OpKeepAlive 0; OpSubscribe "abc_mp3";
               OpPublish "abc_mp3" p_done])
  = [Data p_start].
Proof.
  pose proof (closed_connection_is_silent
                [OpSubscribe "abc_mp3"; OpPublish "abc_mp3" p_start]
                [OpPublish "abc_mp3" p_done; OpKeepAlive 0; OpSubscribe "abc_mp3";
                 OpPublish "abc_mp3" p_done] 0) as H.
  cbv zeta in H. intros h. etrans; [apply H | vm_compute; reflexivity].
  vm_compute. eexists. reflexivity.
Defined.

(** The lookup child exits with code 1: the answer is the 500, and the
    later events of the request change nothing. *)
Lemma failed_lookup_replies_500_run :
  let w := run (handle env0 rq_mp4 [] fs0 Hub.empty)
             [MetaProcClose 1 None; DlWrite 10; ReqClose true] in
  statusCode (res w) = 500
  ∧ body (res w) = Some (failedReply (ErrExited 1))
  ∧ procs w = [mkProc (YtJson "https://www.youtube.com/watch?v=abc") Closed []]
  ∧ fs w = fs0.
Proof.
  intros w.
  destruct (failed_lookup_replies_500 env0 rq_mp4 ∅ Hub.empty
              (MetaProcClose 1 None) (ErrExited 1) [DlWrite 10; ReqClose true]
              eq_refl) as (Hs & Hb & _ & _ & _ & Hf).
  split_and!; [exact Hs | exact Hb | vm_compute; reflexivity | exact Hf].
Defined.

